(** * PrintTable: a shallow embedding of PrintTable.h and its properties

    The C++ header keeps a table (title, column names, rows of cells) in a
    struct, lazily builds a cached textual layout and prints it.  The struct
    becomes a record, every member function a function on that record, the
    [printf] calls a trace of events, and the two ways the code can leave
    defined behaviour (an index past the end of a [std::vector], a
    [std::length_error] thrown by the fill constructor of [std::string])
    the two constructors of an error type. *)

From Stdlib Require Import ZArith Lia Ascii String.
From Stdlib Require DecimalString.
From stdpp Require Import base tactics option list strings.

Local Open Scope Z_scope.

(** ** Machine integers *)

Module Int.

(** [int] is 32 bits wide, [size_t] is 64 bits wide. *)
Definition INT_MIN : Z := - 2 ^ 31.
Definition INT_MAX : Z := 2 ^ 31 - 1.

(** Narrowing to [int] keeps the low 32 bits (two's complement). *)
Definition to_int (z : Z) : Z := (z + 2 ^ 31) mod 2 ^ 32 - 2 ^ 31.

(** Conversion to [size_t] is reduction modulo [2 ^ 64]. *)
Definition to_size_t (z : Z) : Z := z mod 2 ^ 64.

Definition in_range (z : Z) : Prop := INT_MIN <= z <= INT_MAX.

(** [a + b] and [a - b] on two [int]s; overflow wraps around. *)
Definition add (a b : Z) : Z := to_int (a + b).
Definition sub (a b : Z) : Z := to_int (a - b).

(** [a / b] on two [int]s truncates towards zero. *)
Definition div (a b : Z) : Z := Z.quot a b.

End Int.

Arguments Int.to_int : simpl never.
Arguments Int.to_size_t : simpl never.

(** ** Results of fallible code *)

Inductive error : Type :=
| OutOfBounds   (* operator[] of a std::vector past its end *)
| LengthError.  (* std::length_error out of std::string(n, c) *)

Inductive result (A : Type) : Type :=
| Ok (a : A)
| Err (e : error).
Arguments Ok {A} a.
Arguments Err {A} e.

Definition bind {A B : Type} (m : result A) (f : A -> result B) : result B :=
  match m with
  | Ok a => f a
  | Err e => Err e
  end.

Notation "'let*' x ':=' m 'in' k" := (bind m (fun x => k))
  (at level 10, x name, m at level 100, k at level 200).

(** [v[i]] as an rvalue. *)
Definition at_ {A : Type} (v : list A) (i : nat) : result A :=
  match v !! i with
  | Some x => Ok x
  | None => Err OutOfBounds
  end.

(** [v[i] = x]. *)
Definition set_at {A : Type} (v : list A) (i : nat) (x : A) : result (list A) :=
  if decide (i < length v)%nat then Ok (<[i := x]> v) else Err OutOfBounds.

(** [for (size_t k = i; k < i + n; k++) body], threading the loop state. *)
Fixpoint for_loop {St : Type} (body : nat -> St -> result St)
    (i n : nat) (s : St) : result St :=
  match n with
  | O => Ok s
  | S n' => let* s' := body i s in for_loop body (S i) n' s'
  end.

(** ** Strings *)

(** [s.length()], a [size_t]. *)
Definition string_length (s : string) : Z := Z.of_nat (String.length s).

(** [s.empty()]. *)
Definition string_empty (s : string) : bool :=
  match s with
  | EmptyString => true
  | String _ _ => false
  end.

Fixpoint fill (n : nat) (c : ascii) : string :=
  match n with
  | O => EmptyString
  | S n' => String c (fill n' c)
  end.

(** [basic_string::max_size()] of libstdc++ on a 64-bit target.  The code
    only ever passes an [int] as the count, for which every bound between
    [INT_MAX] and [2 ^ 64 - 2 ^ 31] gives the same outcome. *)
Definition string_max_size : Z := 2 ^ 62 - 1.

(** [std::string(n, c)] with [n] an [int]: the count is converted to
    [size_t], and a count above [max_size()] throws. *)
Definition make_string (n : Z) (c : ascii) : result string :=
  if string_max_size <? Int.to_size_t n
  then Err LengthError
  else Ok (fill (Z.to_nat (Int.to_size_t n)) c).

(** [vec.empty()]. *)
Definition vector_empty {A : Type} (v : list A) : bool :=
  match v with
  | [] => true
  | _ :: _ => false
  end.

(** ** The table *)

Record PrintTable : Type := mkPrintTable {
  (* Base data *)
  title : string;
  columnNames : list string;
  rows : list (list string);
  startedAddingRows : bool;
  alteredState : bool;
  (* Format data *)
  maxColumnWidths : list Z;
  fullDividerStr : string;
  titleStr : string;
  columnStr : string;
  rowStrs : list string
}.

(** A default-constructed table. *)
Definition new_table : PrintTable :=
  {| title := ""; columnNames := []; rows := [];
     startedAddingRows := false; alteredState := false;
     maxColumnWidths := []; fullDividerStr := ""; titleStr := "";
     columnStr := ""; rowStrs := [] |}.

(** What the code writes to standard output, one event per [printf] call,
    carrying the arguments handed to it. *)
Inductive Event : Type :=
| ColumnsLocked (tableTitle : string)
    (* "Table '%s' already has rows added: additional columns cannot be added." *)
| RowSizeMismatch (rowSize : nat) (tableTitle : string) (numColumns : nat)
    (* "Trying to add row with %lu elements while table '%s' requires %lu elements per row." *)
| MissingData (tableTitle : string) (numColumns numRows : nat)
    (* "Missing some necessary data to print table: ..." *)
| Line (text : string).
    (* printf("%s\n", text.c_str()) *)

(** ** Mutators *)

Definition SetTitle (newTitle : string) (t : PrintTable) : PrintTable * list Event :=
  ({| title := newTitle; columnNames := columnNames t; rows := rows t;
      startedAddingRows := startedAddingRows t; alteredState := true;
      maxColumnWidths := maxColumnWidths t; fullDividerStr := fullDividerStr t;
      titleStr := titleStr t; columnStr := columnStr t; rowStrs := rowStrs t |},
   []).

Definition AddColumn (columnName : string) (t : PrintTable) : PrintTable * list Event :=
  if startedAddingRows t then (t, [ColumnsLocked (title t)])
  else
    ({| title := title t; columnNames := columnNames t ++ [columnName];
        rows := rows t;
        startedAddingRows := startedAddingRows t; alteredState := true;
        maxColumnWidths := maxColumnWidths t; fullDividerStr := fullDividerStr t;
        titleStr := titleStr t; columnStr := columnStr t; rowStrs := rowStrs t |},
     []).

(** [rows.push_back(row)]. *)
Definition push_row (row : list string) (t : PrintTable) : PrintTable :=
  {| title := title t; columnNames := columnNames t; rows := rows t ++ [row];
     startedAddingRows := startedAddingRows t; alteredState := alteredState t;
     maxColumnWidths := maxColumnWidths t; fullDividerStr := fullDividerStr t;
     titleStr := titleStr t; columnStr := columnStr t; rowStrs := rowStrs t |}.

(** [startedAddingRows = true; alteredState = true;]. *)
Definition mark_rows_added (t : PrintTable) : PrintTable :=
  {| title := title t; columnNames := columnNames t; rows := rows t;
     startedAddingRows := true; alteredState := true;
     maxColumnWidths := maxColumnWidths t; fullDividerStr := fullDividerStr t;
     titleStr := titleStr t; columnStr := columnStr t; rowStrs := rowStrs t |}.

Definition AddRow (row : list string) (t : PrintTable) : PrintTable * list Event :=
  if negb (length row =? length (columnNames t))%nat
  then (t, [RowSizeMismatch (length row) (title t) (length (columnNames t))])
  else (mark_rows_added (push_row row t), []).

(** One turn of the range-for loop of [AddRows]. *)
Definition AddRows_body (acc : PrintTable * list Event) (row : list string)
    : PrintTable * list Event :=
  let '(t, out) := acc in
  let out' :=
    if negb (length row =? length (columnNames t))%nat
    then out ++ [RowSizeMismatch (length row) (title t) (length (columnNames t))]
    else out in
  (push_row row t, out').

Definition AddRows (newRows : list (list string)) (t : PrintTable)
    : PrintTable * list Event :=
  let '(t', out) := fold_left AddRows_body newRows (t, []) in
  (mark_rows_added t', out).

Definition Reset (t : PrintTable) : PrintTable * list Event :=
  ({| title := ""; columnNames := resize 0 ""%string (columnNames t);
      rows := resize 0 [] (rows t);
      startedAddingRows := false; alteredState := true;
      maxColumnWidths := resize 0 0 (maxColumnWidths t);
      fullDividerStr := fullDividerStr t;
      titleStr := titleStr t; columnStr := columnStr t; rowStrs := rowStrs t |},
   []).

(** ** Building the format data (the [if (alteredState)] block of [Print]) *)

(** Lines 117-132: the widest text of each column. *)
Definition computeWidths (names : list string) (rws : list (list string))
    (widths0 : list Z) : result (list Z) :=
  let widths := resize (length names) 0 widths0 in
  let* widths :=
    for_loop (fun i widths =>
        let* name := at_ names i in
        set_at widths i (Int.to_int (string_length name)))
      0 (length names) widths in
  for_loop (fun r widths =>
      for_loop (fun c widths =>
          let* row := at_ rws r in
          let* cell := at_ row c in
          let* w := at_ widths c in
          if Int.to_int (string_length cell) >? w
          then set_at widths c (Int.to_int (string_length cell))
          else Ok widths)
        0 (length names) widths)
    0 (length rws) widths.

(** Lines 147-155: the width of the whole table. *)
Definition computeTableWidth (widths : list Z) : Z :=
  let tableWidth := fold_left (fun tableWidth width =>
      Int.add tableWidth (Int.add width 3)) widths 0 in
  Int.add tableWidth 1.

(** [const int lengthDiff = width - text.length();] with [width] an [int]:
    the subtraction is done in [size_t], the result narrowed to [int]. *)
Definition lengthDiff_of (width : Z) (text : string) : Z :=
  Int.to_int (Int.to_size_t (Int.to_size_t width - string_length text)).

(** [const int numPreSpace = lengthDiff / 2;] *)
Definition numPreSpace (lengthDiff : Z) : Z := Int.div lengthDiff 2.

(** [const int numPostSpace = (lengthDiff + 1) / 2;]: the odd space goes
    after the text. *)
Definition numPostSpace (lengthDiff : Z) : Z := Int.div (Int.add lengthDiff 1) 2.

(** [preStr + text + postStr], the text between the bars. *)
Definition padded (lengthDiff : Z) (text : string) : result string :=
  let* preStr := make_string (numPreSpace lengthDiff) " " in
  let* postStr := make_string (numPostSpace lengthDiff) " " in
  Ok (preStr +:+ text +:+ postStr).

(** Lines 158-171. *)
Definition makeTitleStr (tableWidth : Z) (ttl : string) : result string :=
  let lengthDiff := lengthDiff_of (Int.sub tableWidth 4) ttl in
  let* body := padded lengthDiff ttl in
  Ok ("" +:+ ("| " +:+ body +:+ " |")).

(** Lines 177-193: what one column adds to [columnStr]. *)
Definition columnSegment (width : Z) (columnName : string) : result string :=
  let lengthDiff := lengthDiff_of width columnName in
  if lengthDiff >? 0
  then
    let* body := padded lengthDiff columnName in
    Ok ("| " +:+ body +:+ " ")
  else Ok ("| " +:+ columnName +:+ " ").

(** Lines 173-195. *)
Definition makeColumnStr (names : list string) (widths : list Z) : result string :=
  let* columnStr :=
    for_loop (fun i columnStr =>
        let* columnName := at_ names i in
        let* w := at_ widths i in
        let* seg := columnSegment w columnName in
        Ok (columnStr +:+ seg))
      0 (length names) "" in
  Ok (columnStr +:+ "|").

(** Lines 203-212: what one cell adds to [rowStrs[r]]. *)
Definition rowSegment (width : Z) (elementData : string) : result string :=
  let lengthDiff := lengthDiff_of width elementData in
  let* body := padded lengthDiff elementData in
  Ok ("| " +:+ body +:+ " ").

(** Lines 197-215. *)
Definition makeRowStrs (rws : list (list string)) (widths : list Z)
    : result (list string) :=
  let rowStrs := replicate (length rws) ""%string in
  for_loop (fun r rowStrs =>
      let* row := at_ rws r in
      let* rowStrs :=
        for_loop (fun e rowStrs =>
            let* row := at_ rws r in
            let* elementData := at_ row e in
            let* w := at_ widths e in
            let* seg := rowSegment w elementData in
            let* cur := at_ rowStrs r in
            set_at rowStrs r (cur +:+ seg))
          0 (length row) rowStrs in
      let* cur := at_ rowStrs r in
      set_at rowStrs r (cur +:+ "|"))
    0 (length rws) rowStrs.

Definition buildFormat (t : PrintTable) : result PrintTable :=
  let* widths := computeWidths (columnNames t) (rows t) (maxColumnWidths t) in
  let tableWidth := computeTableWidth widths in
  let* divider := make_string tableWidth "-" in
  let* ttl := makeTitleStr tableWidth (title t) in
  let* cols := makeColumnStr (columnNames t) widths in
  let* rstrs := makeRowStrs (rows t) widths in
  Ok {| title := title t; columnNames := columnNames t; rows := rows t;
        startedAddingRows := startedAddingRows t; alteredState := alteredState t;
        maxColumnWidths := widths; fullDividerStr := divider;
        titleStr := ttl; columnStr := cols; rowStrs := rstrs |}.

(** The [printf] calls at the end of [Print]. *)
Definition table_lines (t : PrintTable) : list Event :=
  [Line (fullDividerStr t); Line (titleStr t); Line (fullDividerStr t);
   Line (columnStr t); Line (fullDividerStr t)]
  ++ map Line (rowStrs t)
  ++ [Line (fullDividerStr t)].

(** [alteredState = false;]. *)
Definition mark_printed (t : PrintTable) : PrintTable :=
  {| title := title t; columnNames := columnNames t; rows := rows t;
     startedAddingRows := startedAddingRows t; alteredState := false;
     maxColumnWidths := maxColumnWidths t; fullDividerStr := fullDividerStr t;
     titleStr := titleStr t; columnStr := columnStr t; rowStrs := rowStrs t |}.

Definition Print (t : PrintTable) : result (PrintTable * list Event) :=
  if string_empty (title t) || vector_empty (columnNames t) || vector_empty (rows t)
  then Ok (t, [MissingData (title t) (length (columnNames t)) (length (rows t))])
  else
    let* t' := if alteredState t then buildFormat t else Ok t in
    Ok (mark_printed t', table_lines t').

(** ** Programs: sequences of calls on one table *)

Inductive Call : Type :=
| CallSetTitle (newTitle : string)
| CallAddColumn (columnName : string)
| CallAddRow (row : list string)
| CallAddRows (newRows : list (list string))
| CallPrint
| CallReset.

Definition call (c : Call) (t : PrintTable) : result (PrintTable * list Event) :=
  match c with
  | CallSetTitle s => Ok (SetTitle s t)
  | CallAddColumn s => Ok (AddColumn s t)
  | CallAddRow r => Ok (AddRow r t)
  | CallAddRows rs => Ok (AddRows rs t)
  | CallPrint => Print t
  | CallReset => Ok (Reset t)
  end.

(** Run the calls in order, collecting the output; an error ends the run. *)
Fixpoint run (cs : list Call) (t : PrintTable) : result (PrintTable * list Event) :=
  match cs with
  | [] => Ok (t, [])
  | c :: cs' =>
      let* r := call c t in
      let* r' := run cs' (fst r) in
      Ok (fst r', snd r ++ snd r')
  end.

(** The program of main.cpp, through its first [Print]. *)
Definition main_calls : list Call :=
  [CallSetTitle "My Friends' Gaming GPUs";
   CallAddColumn "Vendor"; CallAddColumn "GPU Name"; CallAddColumn "Release Year";
   CallAddRows [["Nvidia"; "GTX 980 Ti"; "2015"]; ["Nvidia"; "GTX 1070"; "2016"];
                ["Nvidia"; "GTX 1080"; "2016"]; ["Nvidia"; "RTX 2080"; "2018"]];
   CallPrint]%string.


(** A table some sequence of calls builds from a new one. *)
Definition reachable (t : PrintTable) : Prop :=
  exists cs out, run cs new_table = Ok (t, out).

(** ** The layout in closed form *)

(** The condition under which [Print] only writes its diagnostic. *)
Definition incomplete (t : PrintTable) : bool :=
  string_empty (title t) || vector_empty (columnNames t) || vector_empty (rows t).

(** The length of cell [i] of a row, 0 where the row has no such cell. *)
Definition cell_length (i : nat) (row : list string) : nat :=
  from_option String.length 0%nat (row !! i).

(** max(len(columnNames[i]), max over rows of len(row[i])). *)
Definition column_width (names : list string) (rws : list (list string))
    (i : nat) : nat :=
  Nat.max (cell_length i names) (max_list_with (cell_length i) rws).

Definition column_widths (names : list string) (rws : list (list string))
    : list nat :=
  map (column_width names rws) (seq 0 (length names)).

(** Sum over the columns of [w + 3], plus 1. *)
Definition total_width (ws : list nat) : nat :=
  (sum_list_with (fun w => w + 3) ws + 1)%nat.

Definition table_width (t : PrintTable) : nat :=
  total_width (column_widths (columnNames t) (rows t)).

(** Every stored row has exactly as many cells as there are columns. *)
Definition rows_match (t : PrintTable) : Prop :=
  Forall (fun row => length row = length (columnNames t)) (rows t).

(** Every stored row has at least as many cells as there are columns. *)
Definition rows_cover (names : list string) (rws : list (list string)) : Prop :=
  Forall (fun row => (length names <= length row)%nat) rws.

(** [text] centred in [width] places: floor of half the spare room in
    front, the rest behind. *)
Definition leftPad (width : nat) (text : string) : nat :=
  ((width - String.length text) / 2)%nat.

Definition rightPad (width : nat) (text : string) : nat :=
  (width - String.length text - leftPad width text)%nat.

Definition centered (width : nat) (text : string) : string :=
  fill (leftPad width text) " " +:+ text +:+ fill (rightPad width text) " ".

(** One column of a header or row line. *)
Definition segment (wx : nat * string) : string :=
  "| " +:+ centered (fst wx) (snd wx) +:+ " ".

Definition segments (wxs : list (nat * string)) : string :=
  fold_left (fun acc wx => acc +:+ segment wx) wxs ""%string.

(** A header or row line: one segment per cell, then the closing bar. *)
Definition table_line (ws : list nat) (cells : list string) : string :=
  segments (zip ws cells) +:+ "|".

Definition divider_line (width : nat) : string := fill width "-".

Definition title_line (width : nat) (ttl : string) : string :=
  "| " +:+ centered (width - 4) ttl +:+ " |".

(** All the lines of a printed table. *)
Definition layout_lines (t : PrintTable) : list string :=
  let ws := column_widths (columnNames t) (rows t) in
  let w := total_width ws in
  [divider_line w; title_line w (title t); divider_line w;
   table_line ws (columnNames t); divider_line w]
  ++ map (table_line ws) (rows t)
  ++ [divider_line w].

(** The postcondition of a computation: [P] of its value, [E] of its error. *)
Definition wp {A : Type} (E : error -> Prop) (m : result A) (P : A -> Prop) : Prop :=
  match m with
  | Ok a => P a
  | Err e => E e
  end.

(** No error at all; no index out of bounds. *)
Definition no_error : error -> Prop := fun _ => False.
Definition no_oob : error -> Prop := fun e => e <> OutOfBounds.

(** ** Tables and predicates used in the statements *)

(** The table of the long-title example: one column "A", one row "x", and
    a title of five characters against a content width of one. *)
Definition long_title_calls : list Call :=
  [CallSetTitle "Title"; CallAddColumn "A"; CallAddRow ["x"]]%string.

(** The table these calls build. *)
Definition long_title_table : PrintTable :=
  {| title := "Title"; columnNames := ["A"%string]; rows := [["x"%string]];
     startedAddingRows := true; alteredState := true;
     maxColumnWidths := []; fullDividerStr := ""; titleStr := "";
     columnStr := ""; rowStrs := [] |}.

(** Every text of the columns has a length that is an [int]. *)
Definition widths_fit (names : list string) (rws : list (list string)) : Prop :=
  forall i, (i < length names)%nat ->
    Z.of_nat (column_width names rws i) <= Int.INT_MAX.

(** The table of the short-row example: two columns and, through
    [AddRows], a row of one cell. *)
Definition short_row_calls : list Call :=
  [CallSetTitle "T"; CallAddColumn "A"; CallAddColumn "BB";
   CallAddRows [["x"]]]%string.

(** The table these calls build. *)
Definition short_row_table : PrintTable :=
  {| title := "T"; columnNames := ["A"; "BB"]%string; rows := [["x"%string]];
     startedAddingRows := true; alteredState := true;
     maxColumnWidths := []; fullDividerStr := ""; titleStr := "";
     columnStr := ""; rowStrs := [] |}.

(** The same with a row of three cells. *)
Definition long_row_calls : list Call :=
  [CallSetTitle "T"; CallAddColumn "A"; CallAddColumn "BB";
   CallAddRows [["x"; "y"; "z"]]]%string.

(** The table these calls build. *)
Definition long_row_table : PrintTable :=
  {| title := "T"; columnNames := ["A"; "BB"]%string;
     rows := [["x"; "y"; "z"]%string];
     startedAddingRows := true; alteredState := true;
     maxColumnWidths := []; fullDividerStr := ""; titleStr := "";
     columnStr := ""; rowStrs := [] |}.

(** [t] with its [alteredState] replaced. *)
Definition with_alteredState (b : bool) (t : PrintTable) : PrintTable :=
  {| title := title t; columnNames := columnNames t; rows := rows t;
     startedAddingRows := startedAddingRows t; alteredState := b;
     maxColumnWidths := maxColumnWidths t; fullDividerStr := fullDividerStr t;
     titleStr := titleStr t; columnStr := columnStr t; rowStrs := rowStrs t |}.

(** [t] with its format data in closed form. *)
Definition formatted (t : PrintTable) : PrintTable :=
  let ws := column_widths (columnNames t) (rows t) in
  {| title := title t; columnNames := columnNames t; rows := rows t;
     startedAddingRows := startedAddingRows t; alteredState := alteredState t;
     maxColumnWidths := map Z.of_nat ws;
     fullDividerStr := divider_line (total_width ws);
     titleStr := title_line (total_width ws) (title t);
     columnStr := table_line ws (columnNames t);
     rowStrs := map (table_line ws) (rows t) |}.

(** The two tables agree on everything but the format data and the
    [alteredState] flag. *)
Definition same_data (t1 t2 : PrintTable) : Prop :=
  title t1 = title t2 /\ columnNames t1 = columnNames t2 /\ rows t1 = rows t2
  /\ startedAddingRows t1 = startedAddingRows t2.

(** The stored format is the one [Print] would build now. *)
Definition format_valid (t : PrintTable) : Prop :=
  alteredState t = false -> incomplete t = true \/ buildFormat t = Ok t.

(** The table of the worked example of the specification. *)
Definition small_calls : list Call :=
  [CallSetTitle "T"; CallAddColumn "A"; CallAddColumn "BB";
   CallAddRow ["x"; "y"]]%string.

(** A title one character longer than the content width. *)
Definition wide_title_calls : list Call :=
  [CallSetTitle "Hello"; CallAddColumn "AAAA"; CallAddRow ["x"]]%string.





(** ** Standard output *)

(** The line feed and the NUL character. *)
Definition LF : ascii := "010"%char.
Definition NUL : ascii := "000"%char.
Definition TAB : ascii := "009"%char.

(** [s.c_str()] as [printf] reads it under [%s]: the characters before
    the first NUL. *)
Fixpoint c_str (s : string) : string :=
  match s with
  | EmptyString => EmptyString
  | String c s' => if Ascii.eqb c NUL then EmptyString else String c (c_str s')
  end.

(** A [size_t] under [%lu]. *)
Definition decimal (n : nat) : string :=
  DecimalString.NilZero.string_of_uint (Nat.to_uint n).

(** The characters one [printf] call of the code writes. *)
Definition written (e : Event) : string :=
  match e with
  | ColumnsLocked tableTitle =>
      "Table '" +:+ c_str tableTitle
      +:+ "' already has rows added: additional columns cannot be added."
      +:+ String LF ""
  | RowSizeMismatch rowSize tableTitle numColumns =>
      "Trying to add row with " +:+ decimal rowSize
      +:+ " elements while table '" +:+ c_str tableTitle
      +:+ "' requires " +:+ decimal numColumns +:+ " elements per row."
      +:+ String LF ""
  | MissingData tableTitle numColumns numRows =>
      "Missing some necessary data to print table:" +:+ String LF (String TAB "")
      +:+ "Title: '" +:+ c_str tableTitle +:+ "' (must not be empty)"
      +:+ String LF (String TAB "")
      +:+ "Number of columns: " +:+ decimal numColumns +:+ " (min=1)"
      +:+ String LF (String TAB "")
      +:+ "Number of rows: " +:+ decimal numRows +:+ " (min=1)"
      +:+ String LF ""
  | Line text => c_str text +:+ String LF ""
  end.

(** All the characters a sequence of [printf] calls writes. *)
Definition stdout (out : list Event) : string :=
  fold_right (fun e rest => written e +:+ rest) ""%string out.

(** The lines of a text: its characters cut at every line feed; [cur]
    holds the line being read. *)
Fixpoint lines_acc (cur : string) (s : string) : list string :=
  match s with
  | EmptyString =>
      match cur with
      | EmptyString => []
      | String _ _ => [cur]
      end
  | String c s' =>
      if Ascii.eqb c LF then cur :: lines_acc ""%string s'
      else lines_acc (cur +:+ String c "") s'
  end.

Definition stdout_lines (out : list Event) : list string :=
  lines_acc ""%string (stdout out).

(** A text with neither a line feed nor a NUL in it. *)
Fixpoint plainb (s : string) : bool :=
  match s with
  | EmptyString => true
  | String c s' => negb (Ascii.eqb c LF) && negb (Ascii.eqb c NUL) && plainb s'
  end.

(** No line feed and no NUL in the title, in a column name or in a cell
    (limitation 1 of the header, and what [c_str] asks for). *)
Definition plain_table (t : PrintTable) : bool :=
  plainb (title t) && forallb plainb (columnNames t)
  && forallb (forallb plainb) (rows t).


(** The table with a line feed in its one cell. *)
Definition line_feed_calls : list Call :=
  [CallSetTitle "T"; CallAddColumn "A";
   CallAddRow [String "a" (String LF (String "b" ""))]]%string.

(** ** Shapes of programs *)

(** No call of [AddRows] in the program. *)
Definition no_AddRows (cs : list Call) : bool :=
  forallb (fun c => match c with CallAddRows _ => false | _ => true end) cs.

(** No call of [Reset] in the program. *)
Definition no_Reset (cs : list Call) : bool :=
  forallb (fun c => match c with CallReset => false | _ => true end) cs.

(** A table that holds a row has its columns locked. *)
Definition rows_locked (t : PrintTable) : Prop :=
  rows t <> [] -> startedAddingRows t = true.

(** Rows are added one at a time, by [AddRow]. *)
Definition add_each (rws : list (list string)) (t : PrintTable) : PrintTable :=
  fold_left (fun t row => fst (AddRow row t)) rws t.

(** * Properties *)

(** ** Machine integers *)

(** Linear arithmetic with the bounds of [int] written out. *)
Ltac int_lia := unfold Int.in_range, Int.INT_MIN, Int.INT_MAX in *; lia.

Lemma to_int_id z : Int.in_range z -> Int.to_int z = z.
Proof.
  unfold Int.in_range, Int.INT_MIN, Int.INT_MAX, Int.to_int. intros Hz.
  rewrite Z.mod_small; lia.
Qed.

Lemma to_int_to_size_t z : Int.to_int (Int.to_size_t z) = Int.to_int z.
Proof.
  unfold Int.to_int, Int.to_size_t. f_equal.
  rewrite <- (Z.mod_mod_divide (z + 2 ^ 31) (2 ^ 64) (2 ^ 32)) by (exists (2 ^ 32); reflexivity).
  rewrite <- (Z.mod_mod_divide (z mod 2 ^ 64 + 2 ^ 31) (2 ^ 64) (2 ^ 32)) by (exists (2 ^ 32); reflexivity).
  f_equal. rewrite Z.add_mod_idemp_l by lia. reflexivity.
Qed.

Lemma to_int_sub_to_size_t a b :
  Int.to_int (Int.to_size_t a - b) = Int.to_int (a - b).
Proof.
  unfold Int.to_int, Int.to_size_t. f_equal.
  rewrite <- (Z.mod_mod_divide (a - b + 2 ^ 31) (2 ^ 64) (2 ^ 32)) by (exists (2 ^ 32); reflexivity).
  rewrite <- (Z.mod_mod_divide (a mod 2 ^ 64 - b + 2 ^ 31) (2 ^ 64) (2 ^ 32)) by (exists (2 ^ 32); reflexivity).
  f_equal.
  replace (a mod 2 ^ 64 - b + 2 ^ 31) with (a mod 2 ^ 64 + (2 ^ 31 - b)) by lia.
  rewrite Z.add_mod_idemp_l by lia. f_equal. lia.
Qed.

Lemma lengthDiff_of_wrap w text :
  lengthDiff_of w text = Int.to_int (w - string_length text).
Proof.
  unfold lengthDiff_of. rewrite to_int_to_size_t. apply to_int_sub_to_size_t.
Qed.

Lemma string_length_nonneg s : 0 <= string_length s.
Proof. unfold string_length. lia. Qed.

(** With the width an [int] and the text no longer than the width, the
    difference is exact. *)
Lemma lengthDiff_of_exact w text :
  w <= Int.INT_MAX -> string_length text <= w ->
  lengthDiff_of w text = w - string_length text.
Proof.
  intros Hw Hl. rewrite lengthDiff_of_wrap. apply to_int_id.
  pose proof (string_length_nonneg text).
  int_lia.
Qed.

(** ** Strings *)

Lemma append_nil_l (s : string) : "" +:+ s = s.
Proof. reflexivity. Qed.

Lemma append_cons c (s1 s2 : string) : String c s1 +:+ s2 = String c (s1 +:+ s2).
Proof. reflexivity. Qed.

Lemma length_append (s1 s2 : string) :
  String.length (s1 +:+ s2) = (String.length s1 + String.length s2)%nat.
Proof.
  induction s1 as [|c s1 IH]; [reflexivity |].
  rewrite append_cons. simpl. now rewrite IH.
Qed.

Lemma append_nil_r (s : string) : s +:+ "" = s.
Proof.
  induction s as [|c s IH]; [reflexivity |].
  rewrite append_cons. now rewrite IH.
Qed.

Lemma length_fill n c : String.length (fill n c) = n.
Proof. induction n as [|n IH]; simpl; [reflexivity | now rewrite IH]. Qed.

(** The fill constructor succeeds exactly on the non-negative [int]s. *)
Lemma make_string_nonneg n c :
  0 <= n <= Int.INT_MAX -> make_string n c = Ok (fill (Z.to_nat n) c).
Proof.
  unfold Int.INT_MAX, make_string, string_max_size, Int.to_size_t. intros Hn.
  rewrite Z.mod_small by lia.
  destruct (Z.ltb_spec (2 ^ 62 - 1) n); [lia | reflexivity].
Qed.

(** ** Reasoning about fallible code and loops *)

Section Wp.

(** The errors a computation is allowed to end in. *)
Variable E : error -> Prop.

Lemma wp_bind {A B} (m : result A) (f : A -> result B) (Q : B -> Prop) :
  wp E m (fun a => wp E (f a) Q) -> wp E (bind m f) Q.
Proof. destruct m; simpl; auto. Qed.

Lemma wp_mono {A} (m : result A) (P Q : A -> Prop) :
  wp E m P -> (forall a, P a -> Q a) -> wp E m Q.
Proof. destruct m; simpl; auto. Qed.

Lemma wp_Ok {A} (m : result A) (P : A -> Prop) :
  wp E m P -> (forall e, ~ E e) -> exists a, m = Ok a /\ P a.
Proof. destruct m as [a|e]; simpl; intros H HE; [eauto | destruct (HE e H)]. Qed.

Lemma wp_at {A} (v : list A) i (P : A -> Prop) :
  (i < length v)%nat -> (forall x, v !! i = Some x -> P x) -> wp E (at_ v i) P.
Proof.
  intros Hi HP. unfold at_.
  destruct (lookup_lt_is_Some_2 v i Hi) as [x Hx]. rewrite Hx. simpl. auto.
Qed.

Lemma wp_set_at {A} (v : list A) i x (P : list A -> Prop) :
  (i < length v)%nat -> P (<[i := x]> v) -> wp E (set_at v i x) P.
Proof. intros Hi HP. unfold set_at. rewrite decide_True by exact Hi. exact HP. Qed.

(** The invariant rule of the counting loop. *)
Lemma wp_for_loop {St} (Inv : nat -> St -> Prop) (body : nat -> St -> result St) n :
  forall i s,
    Inv i s ->
    (forall k s', (i <= k < i + n)%nat -> Inv k s' -> wp E (body k s') (Inv (S k))) ->
    wp E (for_loop body i n s) (Inv (i + n)%nat).
Proof.
  induction n as [|n IH]; intros i s Hinv Hbody; simpl.
  - now rewrite Nat.add_0_r.
  - apply wp_bind. eapply wp_mono; [apply Hbody; [lia | exact Hinv] |].
    intros s' Hs'. replace (i + S n)%nat with (S i + n)%nat by lia.
    apply IH; [exact Hs' |]. intros k s'' Hk. apply Hbody. lia.
Qed.

Lemma wp_make_string_any n c (P : string -> Prop) :
  E LengthError -> (forall s, P s) -> wp E (make_string n c) P.
Proof. intros HE HP. unfold make_string. destruct (_ <? _); simpl; auto. Qed.

End Wp.

Lemma bind_Ok_inv {A B} (m : result A) (f : A -> result B) (b : B) :
  bind m f = Ok b -> exists a, m = Ok a /\ f a = Ok b.
Proof. destruct m as [a|e]; simpl; [eauto | discriminate]. Qed.

(** ** The mutators *)

Lemma AddRows_fold newRows : forall t out,
  fold_left AddRows_body newRows (t, out) =
  ({| title := title t; columnNames := columnNames t; rows := rows t ++ newRows;
      startedAddingRows := startedAddingRows t; alteredState := alteredState t;
      maxColumnWidths := maxColumnWidths t; fullDividerStr := fullDividerStr t;
      titleStr := titleStr t; columnStr := columnStr t; rowStrs := rowStrs t |},
   out ++ map (fun row => RowSizeMismatch (length row) (title t) (length (columnNames t)))
          (filter (fun row => length row <> length (columnNames t)) newRows)).
Proof.
  induction newRows as [|row newRows IH]; intros t out; simpl.
  - rewrite !app_nil_r. now destruct t.
  - rewrite IH. simpl. rewrite <- app_assoc. simpl. f_equal.
    rewrite filter_cons.
    destruct (Nat.eqb_spec (length row) (length (columnNames t))) as [Heq|Hne]; simpl.
    + now rewrite decide_False by (intros H; apply H; exact Heq).
    + rewrite decide_True by exact Hne. simpl. now rewrite <- app_assoc.
Qed.

Lemma AddRows_eq newRows t :
  AddRows newRows t =
  ({| title := title t; columnNames := columnNames t; rows := rows t ++ newRows;
      startedAddingRows := true; alteredState := true;
      maxColumnWidths := maxColumnWidths t; fullDividerStr := fullDividerStr t;
      titleStr := titleStr t; columnStr := columnStr t; rowStrs := rowStrs t |},
   map (fun row => RowSizeMismatch (length row) (title t) (length (columnNames t)))
     (filter (fun row => length row <> length (columnNames t)) newRows)).
Proof. unfold AddRows. rewrite AddRows_fold. reflexivity. Qed.

(** C3: a row whose cell count differs from the column count is reported
    and dropped by [AddRow], reported and stored all the same by [AddRows];
    a row with the right count is stored by both, without a report. *)
Theorem AddRow_drops_AddRows_keeps (t : PrintTable) :
  (forall row, length row <> length (columnNames t) ->
     AddRow row t =
       (t, [RowSizeMismatch (length row) (title t) (length (columnNames t))]))
  /\ (forall row, length row = length (columnNames t) ->
        rows (fst (AddRow row t)) = rows t ++ [row] /\ snd (AddRow row t) = [])
  /\ (forall newRows,
        rows (fst (AddRows newRows t)) = rows t ++ newRows
        /\ snd (AddRows newRows t) =
           map (fun row => RowSizeMismatch (length row) (title t) (length (columnNames t)))
             (filter (fun row => length row <> length (columnNames t)) newRows)).
Proof.
  split; [| split].
  - intros row Hne. unfold AddRow.
    destruct (Nat.eqb_spec (length row) (length (columnNames t))); [contradiction | reflexivity].
  - intros row Heq. unfold AddRow.
    destruct (Nat.eqb_spec (length row) (length (columnNames t))); [| contradiction].
    simpl. auto.
  - intros newRows. rewrite AddRows_eq. simpl. auto.
Qed.

(** A two-column table: the short row is refused by [AddRow], the full row
    is stored, and [AddRows] stores both while reporting the short one. *)
Lemma AddRow_drops_AddRows_keeps_witness :
  let t := fst (AddColumn "B" (fst (AddColumn "A" new_table))) in
  AddRow ["a"%string] t = (t, [RowSizeMismatch 1 "" 2])
  /\ rows (fst (AddRow ["b"; "c"]%string t)) = [["b"; "c"]%string]
  /\ rows (fst (AddRows [["a"]; ["b"; "c"]]%string t)) = [["a"]; ["b"; "c"]]%string
  /\ snd (AddRows [["a"]; ["b"; "c"]]%string t) = [RowSizeMismatch 1 "" 2].
Proof.
  intros t.
  destruct (AddRow_drops_AddRows_keeps t) as (Hdrop & Hkeep & Hbulk).
  split; [| split; [| split]].
  - apply (Hdrop ["a"%string]). vm_compute. lia.
  - apply (Hkeep ["b"; "c"]%string). reflexivity.
  - apply (Hbulk [["a"]; ["b"; "c"]]%string).
  - apply (Hbulk [["a"]; ["b"; "c"]]%string).
Defined.

(** C6: once rows have been added, [AddColumn] only reports and leaves the
    whole table as it was; before that it appends the name and marks the
    table altered. *)
Theorem AddColumn_locked_after_rows (name : string) (t : PrintTable) :
  (startedAddingRows t = true ->
     AddColumn name t = (t, [ColumnsLocked (title t)]))
  /\ (startedAddingRows t = false ->
        columnNames (fst (AddColumn name t)) = columnNames t ++ [name]
        /\ alteredState (fst (AddColumn name t)) = true
        /\ title (fst (AddColumn name t)) = title t
        /\ rows (fst (AddColumn name t)) = rows t
        /\ startedAddingRows (fst (AddColumn name t)) = false
        /\ snd (AddColumn name t) = []).
Proof.
  unfold AddColumn. split; intros H; rewrite H; simpl; auto 10.
Qed.

Lemma AddColumn_locked_after_rows_witness :
  let t := fst (AddRow ["x"%string] (fst (AddColumn "A" new_table))) in
  AddColumn "B" t = (t, [ColumnsLocked ""])
  /\ columnNames (fst (AddColumn "A" new_table)) = ["A"%string]
  /\ alteredState (fst (AddColumn "A" new_table)) = true.
Proof.
  intros t. split.
  - apply (proj1 (AddColumn_locked_after_rows "B" t)). reflexivity.
  - destruct (proj2 (AddColumn_locked_after_rows "A" new_table)) as (H1 & H2 & _).
    + reflexivity.
    + split; [exact H1 | exact H2].
Defined.



(** ** Printing an incomplete table *)

Lemma Print_incomplete t :
  incomplete t = true ->
  Print t = Ok (t, [MissingData (title t) (length (columnNames t)) (length (rows t))]).
Proof. unfold Print, incomplete. intros ->. reflexivity. Qed.

Lemma Print_complete t :
  incomplete t = false ->
  Print t =
    let* t' := if alteredState t then buildFormat t else Ok t in
    Ok (mark_printed t', table_lines t').
Proof. unfold Print, incomplete. intros ->. reflexivity. Qed.

(** C5: with an empty title, no column or no row, [Print] writes the one
    diagnostic that names the three quantities, prints no line of the table
    and returns the table as it was; a table just reset is in that case. *)
Theorem Print_incomplete_only_diagnostic (t : PrintTable) :
  (title t = ""%string \/ columnNames t = [] \/ rows t = [] ->
     Print t = Ok (t, [MissingData (title t) (length (columnNames t)) (length (rows t))]))
  /\ Print (fst (Reset t)) = Ok (fst (Reset t), [MissingData "" 0 0]).
Proof.
  split.
  - intros H. apply Print_incomplete. unfold incomplete.
    destruct H as [H | [H | H]]; rewrite H; simpl; rewrite ?orb_true_r; reflexivity.
  - rewrite Print_incomplete by reflexivity. simpl. now rewrite !resize_0.
Qed.

Lemma Print_incomplete_only_diagnostic_witness :
  let t := fst (AddColumn "A" (fst (SetTitle "T" new_table))) in
  Print t = Ok (t, [MissingData "T" 1 0]).
Proof.
  intros t. apply (proj1 (Print_incomplete_only_diagnostic t)).
  right. right. reflexivity.
Defined.

(** ** Centring *)

Lemma quot2_halves d : 0 <= d -> Z.quot d 2 + Z.quot (d + 1) 2 = d.
Proof.
  intros Hd. rewrite !Z.quot_div_nonneg by lia.
  pose proof (Z.div_mod d 2). pose proof (Z.mod_pos_bound d 2).
  pose proof (Z.div_mod (d + 1) 2). pose proof (Z.mod_pos_bound (d + 1) 2).
  assert (d mod 2 = 0 \/ d mod 2 = 1) as [Hm0 | Hm1] by lia.
  - assert ((d + 1) mod 2 = 1); [| lia].
    rewrite <- Z.add_mod_idemp_l by lia. rewrite Hm0. reflexivity.
  - assert ((d + 1) mod 2 = 0); [| lia].
    rewrite <- Z.add_mod_idemp_l by lia. rewrite Hm1. reflexivity.
Qed.

Lemma numPreSpace_exact d : 0 <= d -> numPreSpace d = d / 2.
Proof. intros Hd. unfold numPreSpace, Int.div. apply Z.quot_div_nonneg; lia. Qed.

Lemma numPostSpace_exact d :
  0 <= d < Int.INT_MAX -> numPostSpace d = d - d / 2.
Proof.
  intros Hd. unfold numPostSpace, Int.div, Int.add.
  rewrite to_int_id by int_lia.
  pose proof (quot2_halves d (proj1 Hd)) as H.
  rewrite (Z.quot_div_nonneg d 2) in H by lia. lia.
Qed.

(** Left and right padding in [Z], for a text that fits. *)
Lemma leftPad_Z (W : nat) text :
  (String.length text <= W)%nat ->
  Z.of_nat (leftPad W text) = (Z.of_nat W - string_length text) / 2.
Proof.
  intros Hle. unfold leftPad, string_length.
  rewrite Nat2Z.inj_div, Nat2Z.inj_sub by lia. reflexivity.
Qed.

Lemma rightPad_Z (W : nat) text :
  (String.length text <= W)%nat ->
  Z.of_nat (rightPad W text) =
    (Z.of_nat W - string_length text) - (Z.of_nat W - string_length text) / 2.
Proof.
  intros Hle. unfold rightPad.
  assert (leftPad W text <= W - String.length text)%nat
    by (unfold leftPad; apply Nat.Div0.div_le_upper_bound; lia).
  rewrite Nat2Z.inj_sub by lia. rewrite leftPad_Z by lia.
  rewrite Nat2Z.inj_sub by lia. reflexivity.
Qed.

Lemma pads_sum (W : nat) text :
  (String.length text <= W)%nat ->
  (leftPad W text + String.length text + rightPad W text = W)%nat.
Proof.
  intros Hle. unfold rightPad.
  assert (leftPad W text <= W - String.length text)%nat
    by (unfold leftPad; apply Nat.Div0.div_le_upper_bound; lia).
  lia.
Qed.

Lemma length_centered (W : nat) text :
  (String.length text <= W)%nat -> String.length (centered W text) = W.
Proof.
  intros Hle. unfold centered. rewrite !length_append, !length_fill.
  pose proof (pads_sum W text Hle). lia.
Qed.

Lemma centered_exact_fit text : centered (String.length text) text = text.
Proof.
  unfold centered, leftPad, rightPad. rewrite Nat.sub_diag. simpl.
  rewrite append_nil_l. apply append_nil_r.
Qed.

(** The padding code on a non-negative difference that leaves room for
    the [+ 1]. *)
Lemma padded_centered (W : nat) text :
  (String.length text <= W)%nat -> Z.of_nat W < Int.INT_MAX ->
  padded (Z.of_nat W - string_length text) text = Ok (centered W text).
Proof.
  intros Hle HW. unfold padded.
  pose proof (string_length_nonneg text) as Hl.
  assert (Hd : 0 <= Z.of_nat W - string_length text < Int.INT_MAX)
    by (unfold string_length in *; lia).
  rewrite numPreSpace_exact, numPostSpace_exact by lia.
  pose proof (leftPad_Z W text Hle) as HL. pose proof (rightPad_Z W text Hle) as HR.
  rewrite <- HR, <- HL.
  rewrite !make_string_nonneg by (unfold Int.INT_MAX in *; lia).
  simpl. rewrite !Nat2Z.id. reflexivity.
Qed.

Lemma rowSegment_centered (W : nat) text :
  (String.length text <= W)%nat -> Z.of_nat W < Int.INT_MAX ->
  rowSegment (Z.of_nat W) text = Ok (segment (W, text)).
Proof.
  intros Hle HW. unfold rowSegment.
  rewrite lengthDiff_of_exact by (unfold string_length; lia).
  rewrite padded_centered by assumption. reflexivity.
Qed.

Lemma columnSegment_centered (W : nat) text :
  (String.length text <= W)%nat -> Z.of_nat W < Int.INT_MAX ->
  columnSegment (Z.of_nat W) text = Ok (segment (W, text)).
Proof.
  intros Hle HW. unfold columnSegment.
  rewrite lengthDiff_of_exact by (unfold string_length; lia).
  destruct (Z.gtb_spec (Z.of_nat W - string_length text) 0) as [Hgt | Hle0].
  - rewrite padded_centered by assumption. reflexivity.
  - assert (W = String.length text) as -> by (unfold string_length in *; lia).
    unfold segment. simpl. now rewrite centered_exact_fit.
Qed.

Lemma makeTitleStr_centered (W : nat) ttl :
  (String.length ttl + 4 <= W)%nat -> Z.of_nat W <= Int.INT_MAX ->
  makeTitleStr (Z.of_nat W) ttl = Ok (title_line W ttl).
Proof.
  intros Hle HW. unfold makeTitleStr, Int.sub.
  rewrite to_int_id by int_lia.
  replace (Z.of_nat W - 4) with (Z.of_nat (W - 4)) by lia.
  rewrite lengthDiff_of_exact by (unfold string_length; lia).
  rewrite padded_centered by lia. reflexivity.
Qed.




(** ** The title line *)

Lemma makeTitleStr_length tableWidth ttl s :
  makeTitleStr tableWidth ttl = Ok s ->
  (String.length ttl + 4 <= String.length s)%nat.
Proof.
  unfold makeTitleStr, padded. intros H.
  destruct (make_string (numPreSpace _) " ") as [pre|]; [| discriminate].
  destruct (make_string (numPostSpace _) " ") as [post|]; [| discriminate].
  simpl in H. inversion H; subst s. rewrite append_nil_l.
  rewrite !length_append. simpl. lia.
Qed.

(** C10: for a table width that is an [int], the title line is well
    defined (both pad counts non-negative, the line as long as the table is
    wide) exactly when the title has at most [tableWidth - 4] characters;
    and a reachable table with a longer title makes [numPreSpace] negative,
    on which the fill constructor throws. *)
Theorem title_line_well_defined_iff :
  (forall tableWidth ttl,
     Int.in_range tableWidth ->
     let lengthDiff := lengthDiff_of (Int.sub tableWidth 4) ttl in
     (0 <= numPreSpace lengthDiff /\ 0 <= numPostSpace lengthDiff
      /\ exists s, makeTitleStr tableWidth ttl = Ok s
                   /\ Z.of_nat (String.length s) = tableWidth)
     <-> string_length ttl <= tableWidth - 4)
  /\ (run long_title_calls new_table = Ok (long_title_table, [])
      /\ incomplete long_title_table = false
      /\ computeWidths (columnNames long_title_table) (rows long_title_table)
           (maxColumnWidths long_title_table) = Ok [1]
      /\ computeTableWidth [1] = 5
      /\ string_length (title long_title_table) > 5 - 4
      /\ numPreSpace (lengthDiff_of (Int.sub 5 4) (title long_title_table)) = -2
      /\ Print long_title_table = Err LengthError).
Proof.
  split.
  - intros tableWidth ttl Hr lengthDiff. split.
    + intros (_ & _ & s & Hs & Hlen).
      apply makeTitleStr_length in Hs. unfold string_length. lia.
    + intros Hle. pose proof (string_length_nonneg ttl) as Hl.
      assert (HW : tableWidth = Z.of_nat (Z.to_nat tableWidth)) by lia.
      assert (Hd : lengthDiff = tableWidth - 4 - string_length ttl).
      { unfold lengthDiff, Int.sub.
        rewrite to_int_id by int_lia.
        apply lengthDiff_of_exact; unfold Int.in_range, Int.INT_MAX in *; lia. }
      assert (Hdr : 0 <= lengthDiff < Int.INT_MAX)
        by (unfold Int.in_range, Int.INT_MAX in *; lia).
      split; [| split].
      * rewrite numPreSpace_exact by lia. apply Z.div_pos; lia.
      * rewrite numPostSpace_exact by lia.
        assert (lengthDiff / 2 <= lengthDiff) by (apply Z.div_le_upper_bound; lia).
        lia.
      * exists (title_line (Z.to_nat tableWidth) ttl). split.
        -- rewrite HW at 1. apply makeTitleStr_centered.
           ++ unfold string_length in *. lia.
           ++ unfold Int.in_range in Hr. lia.
        -- unfold title_line. rewrite !length_append, length_centered
             by (unfold string_length in *; lia).
           simpl. unfold string_length in *. lia.
  - repeat split; vm_compute; congruence.
Qed.

(** A table width of ten takes the title "T" and refuses one of seven
    characters. *)
Lemma title_line_well_defined_iff_witness :
  (0 <= numPreSpace (lengthDiff_of (Int.sub 10 4) "T")
   /\ 0 <= numPostSpace (lengthDiff_of (Int.sub 10 4) "T")
   /\ exists s, makeTitleStr 10 "T" = Ok s /\ Z.of_nat (String.length s) = 10)
  /\ ~ (0 <= numPreSpace (lengthDiff_of (Int.sub 10 4) "Toolong")
        /\ 0 <= numPostSpace (lengthDiff_of (Int.sub 10 4) "Toolong")
        /\ exists s, makeTitleStr 10 "Toolong" = Ok s
                     /\ Z.of_nat (String.length s) = 10).
Proof.
  assert (Hr : Int.in_range 10) by (vm_compute; split; discriminate).
  split.
  - apply (proj1 title_line_well_defined_iff 10 "T"%string Hr). vm_compute. discriminate.
  - intros H.
    apply (proj1 title_line_well_defined_iff 10 "Toolong"%string Hr) in H.
    vm_compute in H. apply H. reflexivity.
Defined.

(** ** Column widths *)

Lemma max_list_with_snoc {A} (f : A -> nat) l x :
  max_list_with f (l ++ [x]) = Nat.max (max_list_with f l) (f x).
Proof. induction l as [|y l IH]; simpl; [lia | rewrite IH; lia]. Qed.

Lemma max_list_with_lookup_le {A} (f : A -> nat) (l : list A) i x :
  l !! i = Some x -> (f x <= max_list_with f l)%nat.
Proof.
  revert i. induction l as [|y l IH]; intros [|i] H; simpl in *; try discriminate.
  - inversion H; subst. lia.
  - specialize (IH i H). lia.
Qed.

Lemma column_width_nil names i : column_width names [] i = cell_length i names.
Proof. unfold column_width. simpl. lia. Qed.

Lemma column_width_snoc names rws row i :
  column_width names (rws ++ [row]) i
  = Nat.max (column_width names rws i) (cell_length i row).
Proof. unfold column_width. rewrite max_list_with_snoc. lia. Qed.

Lemma name_le_column_width names rws i :
  (cell_length i names <= column_width names rws i)%nat.
Proof. unfold column_width. lia. Qed.

Lemma cell_le_column_width names (rws : list (list string)) r row i :
  rws !! r = Some row -> (cell_length i row <= column_width names rws i)%nat.
Proof.
  intros H. unfold column_width.
  pose proof (max_list_with_lookup_le (cell_length i) rws r row H). lia.
Qed.

Lemma cell_length_lookup (row : list string) i x :
  row !! i = Some x -> cell_length i row = String.length x.
Proof. unfold cell_length. now intros ->. Qed.

Lemma length_column_widths names rws :
  length (column_widths names rws) = length names.
Proof. unfold column_widths. now rewrite length_map, length_seq. Qed.

Lemma lookup_column_widths names rws i :
  (i < length names)%nat ->
  column_widths names rws !! i = Some (column_width names rws i).
Proof.
  intros Hi. unfold column_widths.
  rewrite list_lookup_fmap, lookup_seq_lt by exact Hi. reflexivity.
Qed.

Lemma to_int_length (n : nat) : Z.of_nat n <= Int.INT_MAX -> Int.to_int (Z.of_nat n) = Z.of_nat n.
Proof.
  intros H. apply to_int_id. int_lia.
Qed.

(** The first loop overwrites every entry, whatever the vector held. *)
Lemma computeWidths_names names widths0 :
  for_loop (fun i widths =>
      let* name := at_ names i in
      set_at widths i (Int.to_int (string_length name)))
    0 (length names) (resize (length names) 0 widths0)
  = Ok (map (fun name => Int.to_int (string_length name)) names).
Proof.
  set (body := fun (i : nat) (widths : list Z) => _).
  pose (Inv := fun (k : nat) (ws : list Z) =>
    length ws = length names /\
    forall j, (j < k)%nat ->
      ws !! j = (fun name => Int.to_int (string_length name)) <$> names !! j).
  destruct (wp_Ok no_error (for_loop body 0 (length names) (resize (length names) 0 widths0))
              (Inv (0 + length names)%nat)) as (ws & Hws & Hlen & Hlook).
  - apply wp_for_loop.
    + split; [apply length_resize | intros j Hj; lia].
    + intros k ws Hk [Hlen Hlook]. unfold body. apply wp_bind.
      apply wp_at; [lia |]. intros name Hname.
      apply wp_set_at; [lia |]. split; [now rewrite length_insert |].
      intros j Hj. destruct (decide (j = k)) as [-> | Hne].
      * rewrite list_lookup_insert_eq by lia. now rewrite Hname.
      * rewrite list_lookup_insert_ne by congruence. apply Hlook. lia.
  - intros e He. exact He.
  - rewrite Hws. f_equal. apply list_eq. intros j.
    rewrite list_lookup_fmap.
    destruct (decide (j < length names)%nat) as [Hj | Hj].
    + apply Hlook. lia.
    + rewrite !lookup_ge_None_2; [reflexivity | lia | lia].
Qed.

(** The scan of the rows, given the widths of the names. *)
Lemma computeWidths_rows names rws :
  rows_cover names rws -> widths_fit names rws ->
  for_loop (fun r widths =>
      for_loop (fun c widths =>
          let* row := at_ rws r in
          let* cell := at_ row c in
          let* w := at_ widths c in
          if Int.to_int (string_length cell) >? w
          then set_at widths c (Int.to_int (string_length cell))
          else Ok widths)
        0 (length names) widths)
    0 (length rws)
    (map (fun name => Int.to_int (string_length name)) names)
  = Ok (map Z.of_nat (column_widths names rws)).
Proof.
  intros Hcover Hfit.
  set (body := fun (r : nat) (widths : list Z) => _).
  pose (Inv := fun (r : nat) (ws : list Z) =>
    length ws = length names /\
    forall j, (j < length names)%nat ->
      ws !! j = Some (Z.of_nat (column_width names (take r rws) j))).
  destruct (wp_Ok no_error
              (for_loop body 0 (length rws)
                 (map (fun name => Int.to_int (string_length name)) names))
              (Inv (0 + length rws)%nat)) as (ws & Hws & Hlen & Hlook).
  - apply wp_for_loop.
    + split; [apply length_map |]. intros j Hj.
      rewrite list_lookup_fmap. rewrite take_0, column_width_nil.
      destruct (lookup_lt_is_Some_2 names j Hj) as [name Hname].
      rewrite Hname. simpl. f_equal. unfold string_length.
      rewrite (cell_length_lookup names j name Hname).
      apply to_int_length.
      pose proof (Hfit j Hj). pose proof (name_le_column_width names rws j).
      rewrite (cell_length_lookup names j name Hname) in *. lia.
    + intros r ws Hr [Hlen Hlook]. unfold body.
      destruct (lookup_lt_is_Some_2 rws r ltac:(lia)) as [row Hrow].
      assert (Hrowlen : (length names <= length row)%nat)
        by (exact (Forall_lookup_1 (fun row => (length names <= length row)%nat) rws r row Hcover Hrow)).
      pose (Inv' := fun (c : nat) (ws' : list Z) =>
        length ws' = length names /\
        forall j, (j < length names)%nat ->
          ws' !! j = Some (Z.of_nat
            (if decide (j < c)%nat
             then column_width names (take (S r) rws) j
             else column_width names (take r rws) j))).
      eapply wp_mono.
      * apply (wp_for_loop no_error Inv').
        -- split; [exact Hlen |]. intros j Hj.
           rewrite decide_False by lia. now apply Hlook.
        -- intros c ws' Hc [Hlen' Hlook'].
           apply wp_bind. apply wp_at; [lia |]. intros row' Hrow'.
           rewrite Hrow in Hrow'. inversion Hrow'; subst row'.
           apply wp_bind. apply wp_at; [lia |]. intros cell Hcell.
           apply wp_bind. apply wp_at; [lia |]. intros w Hw.
           rewrite Hlook' in Hw by lia. rewrite decide_False in Hw by lia.
           inversion Hw; subst w. clear Hw.
           assert (Hcl : cell_length c row = String.length cell)
             by (now apply cell_length_lookup).
           assert (Hto : Int.to_int (string_length cell) = Z.of_nat (String.length cell)).
           { apply to_int_length. pose proof (Hfit c ltac:(lia)).
             pose proof (cell_le_column_width names rws r row c Hrow). lia. }
           rewrite Hto.
           assert (Hnew : take (S r) rws = take r rws ++ [row]) by (now apply take_S_r).
           destruct (Z.gtb_spec (Z.of_nat (String.length cell))
                       (Z.of_nat (column_width names (take r rws) c))) as [Hgt | Hle].
           ++ apply wp_set_at; [lia |]. split; [now rewrite length_insert |].
              intros j Hj. destruct (decide (j = c)) as [-> | Hne].
              ** rewrite list_lookup_insert_eq by lia.
                 rewrite decide_True by lia. f_equal.
                 rewrite Hnew, column_width_snoc, Hcl. lia.
              ** rewrite list_lookup_insert_ne by congruence.
                 rewrite Hlook' by lia.
                 destruct (decide (j < c)%nat), (decide (j < S c)%nat);
                   try reflexivity; lia.
           ++ simpl. split; [exact Hlen' |]. intros j Hj.
              rewrite Hlook' by lia. destruct (decide (j = c)) as [-> | Hne].
              ** rewrite decide_False by lia. rewrite decide_True by lia. f_equal.
                 rewrite Hnew, column_width_snoc, Hcl. lia.
              ** destruct (decide (j < c)%nat), (decide (j < S c)%nat);
                   try reflexivity; lia.
      * simpl. intros ws' [Hlen' Hlook']. split; [exact Hlen' |].
        intros j Hj. rewrite Hlook' by lia. now rewrite decide_True by lia.
  - intros e He. exact He.
  - rewrite Hws. f_equal. apply list_eq. intros j.
    rewrite list_lookup_fmap.
    destruct (decide (j < length names)%nat) as [Hj | Hj].
    + rewrite Hlook by lia. rewrite lookup_column_widths by lia. simpl.
      now rewrite take_ge by lia.
    + rewrite !lookup_ge_None_2; [reflexivity | | lia].
      rewrite length_column_widths. lia.
Qed.

Lemma computeWidths_unfold names rws widths0 :
  computeWidths names rws widths0 =
  for_loop (fun r widths =>
      for_loop (fun c widths =>
          let* row := at_ rws r in
          let* cell := at_ row c in
          let* w := at_ widths c in
          if Int.to_int (string_length cell) >? w
          then set_at widths c (Int.to_int (string_length cell))
          else Ok widths)
        0 (length names) widths)
    0 (length rws)
    (map (fun name => Int.to_int (string_length name)) names).
Proof. unfold computeWidths. now rewrite computeWidths_names. Qed.

(** What the vector held before does not matter. *)
Lemma computeWidths_fresh names rws widths0 widths1 :
  computeWidths names rws widths0 = computeWidths names rws widths1.
Proof. now rewrite !computeWidths_unfold. Qed.

Lemma computeWidths_exact names rws widths0 :
  rows_cover names rws -> widths_fit names rws ->
  computeWidths names rws widths0 = Ok (map Z.of_nat (column_widths names rws)).
Proof. intros. rewrite computeWidths_unfold. now apply computeWidths_rows. Qed.

Lemma buildFormat_widths t t' :
  buildFormat t = Ok t' ->
  computeWidths (columnNames t) (rows t) (maxColumnWidths t) = Ok (maxColumnWidths t').
Proof.
  unfold buildFormat. intros H.
  apply bind_Ok_inv in H as (ws & Hws & H).
  apply bind_Ok_inv in H as (dv & _ & H).
  apply bind_Ok_inv in H as (tl & _ & H).
  apply bind_Ok_inv in H as (cs & _ & H).
  apply bind_Ok_inv in H as (rs & _ & H).
  inversion H. exact Hws.
Qed.

(** ** Index accesses of [Print] *)

Lemma wp_padded_safe lengthDiff text (P : string -> Prop) :
  (forall s, P s) -> wp no_oob (padded lengthDiff text) P.
Proof.
  intros HP. unfold padded. apply wp_bind.
  apply wp_make_string_any; [discriminate |]. intros pre.
  apply wp_bind. apply wp_make_string_any; [discriminate |]. intros post.
  simpl. apply HP.
Qed.

Lemma wp_rowSegment_safe w text (P : string -> Prop) :
  (forall s, P s) -> wp no_oob (rowSegment w text) P.
Proof.
  intros HP. unfold rowSegment. apply wp_bind.
  apply wp_padded_safe. intros body. simpl. apply HP.
Qed.

Lemma wp_columnSegment_safe w text (P : string -> Prop) :
  (forall s, P s) -> wp no_oob (columnSegment w text) P.
Proof.
  intros HP. unfold columnSegment. destruct (_ >? _); [| simpl; apply HP].
  apply wp_bind. apply wp_padded_safe. intros body. simpl. apply HP.
Qed.

(** The width scan stays in bounds when every row has a cell for every
    column. *)
Lemma computeWidths_safe names rws widths0 :
  rows_cover names rws ->
  wp no_oob (computeWidths names rws widths0) (fun ws => length ws = length names).
Proof.
  intros Hcover. rewrite computeWidths_unfold.
  eapply wp_mono.
  - apply (wp_for_loop no_oob (fun _ ws => length ws = length names)).
    + apply length_map.
    + intros r ws Hr Hlen.
      destruct (lookup_lt_is_Some_2 rws r ltac:(lia)) as [row Hrow].
      pose proof (Forall_lookup_1 (fun row => (length names <= length row)%nat)
                    rws r row Hcover Hrow) as Hrowlen. simpl in Hrowlen.
      eapply wp_mono.
      * apply (wp_for_loop no_oob (fun _ ws' => length ws' = length names));
          [exact Hlen |].
        intros c ws' Hc Hlen'.
        apply wp_bind. apply wp_at; [lia |]. intros row' Hrow'.
        rewrite Hrow in Hrow'. inversion Hrow'; subst row'.
        apply wp_bind. apply wp_at; [lia |]. intros cell _.
        apply wp_bind. apply wp_at; [lia |]. intros w _.
        destruct (_ >? _); [| exact Hlen'].
        apply wp_set_at; [lia |]. now rewrite length_insert.
      * auto.
  - auto.
Qed.

(** The header loop stays in bounds, the widths having been resized to
    the number of columns. *)
Lemma makeColumnStr_safe names widths :
  length widths = length names ->
  wp no_oob (makeColumnStr names widths) (fun _ => True).
Proof.
  intros Hlen. unfold makeColumnStr. apply wp_bind.
  eapply wp_mono.
  - apply (wp_for_loop no_oob (fun _ _ => True)); [exact I |].
    intros i acc Hi _.
    apply wp_bind. apply wp_at; [lia |]. intros name _.
    apply wp_bind. apply wp_at; [lia |]. intros w _.
    apply wp_bind. apply wp_columnSegment_safe. intros seg. exact I.
  - intros acc _. exact I.
Qed.

(** The row loop stays in bounds when no row has more cells than there
    are widths. *)
Lemma makeRowStrs_safe rws widths :
  Forall (fun row : list string => (length row <= length widths)%nat) rws ->
  wp no_oob (makeRowStrs rws widths) (fun rs => length rs = length rws).
Proof.
  intros Hrows. unfold makeRowStrs.
  eapply wp_mono.
  - apply (wp_for_loop no_oob (fun _ rs => length rs = length rws)).
    + apply length_replicate.
    + intros r rs Hr Hlen.
      apply wp_bind. apply wp_at; [lia |]. intros row Hrow.
      pose proof (Forall_lookup_1 (fun row : list string => (length row <= length widths)%nat)
                    rws r row Hrows Hrow) as Hrowlen. simpl in Hrowlen.
      apply wp_bind. eapply wp_mono.
      * apply (wp_for_loop no_oob (fun _ rs' => length rs' = length rws));
          [exact Hlen |].
        intros e rs' He Hlen'.
        apply wp_bind. apply wp_at; [lia |]. intros row' Hrow'.
        rewrite Hrow in Hrow'. inversion Hrow'; subst row'.
        apply wp_bind. apply wp_at; [lia |]. intros elementData _.
        apply wp_bind. apply wp_at; [lia |]. intros w _.
        apply wp_bind. apply wp_rowSegment_safe. intros seg.
        apply wp_bind. apply wp_at; [lia |]. intros cur _.
        apply wp_set_at; [lia |]. now rewrite length_insert.
      * simpl. intros rs' Hlen'.
        apply wp_bind. apply wp_at; [lia |]. intros cur _.
        apply wp_set_at; [lia |]. now rewrite length_insert.
  - auto.
Qed.

Lemma buildFormat_safe t :
  rows_match t -> wp no_oob (buildFormat t) (fun _ => True).
Proof.
  intros Hmatch. unfold buildFormat.
  apply wp_bind. eapply wp_mono.
  - apply computeWidths_safe. unfold rows_cover.
    eapply Forall_impl; [exact Hmatch |]. simpl. intros row ->. lia.
  - intros ws Hws. cbv beta in Hws.
    apply wp_bind. apply wp_make_string_any; [discriminate |]. intros dv.
    apply wp_bind. unfold makeTitleStr.
    apply wp_bind. apply wp_padded_safe. intros body. cbn [wp].
    apply wp_bind. eapply wp_mono; [apply makeColumnStr_safe; exact Hws |].
    intros cs _.
    apply wp_bind. eapply wp_mono.
    + apply makeRowStrs_safe.
      eapply Forall_impl; [exact Hmatch |]. simpl. intros row ->. lia.
    + intros rs _. exact I.
Qed.

(** C4: when every stored row has exactly as many cells as there are
    columns, no index access of [Print] is out of bounds ([rows[r][c]] of
    the width scan and [maxColumnWidths[e]] of the row lines included):
    the scan and the row loop each end without an out-of-range index and so
    does [Print]; and [AddRows] reaches tables, with a short row or a long
    one, on which they do not. *)
Theorem Print_in_bounds_when_rows_match :
  (forall t, rows_match t ->
     computeWidths (columnNames t) (rows t) (maxColumnWidths t) <> Err OutOfBounds
     /\ (forall ws, computeWidths (columnNames t) (rows t) (maxColumnWidths t) = Ok ws ->
           makeRowStrs (rows t) ws <> Err OutOfBounds)
     /\ Print t <> Err OutOfBounds)
  /\ (run short_row_calls new_table = Ok (short_row_table, [RowSizeMismatch 1 "T" 2])
      /\ computeWidths (columnNames short_row_table) (rows short_row_table)
           (maxColumnWidths short_row_table) = Err OutOfBounds
      /\ Print short_row_table = Err OutOfBounds)
  /\ (run long_row_calls new_table = Ok (long_row_table, [RowSizeMismatch 3 "T" 2])
      /\ computeWidths (columnNames long_row_table) (rows long_row_table)
           (maxColumnWidths long_row_table) = Ok [1; 2]
      /\ makeRowStrs (rows long_row_table) [1; 2] = Err OutOfBounds
      /\ Print long_row_table = Err OutOfBounds).
Proof.
  split; [| split; repeat split; reflexivity].
  intros t Hmatch.
  assert (Hcover : rows_cover (columnNames t) (rows t)).
  { unfold rows_cover. eapply Forall_impl; [exact Hmatch |]. simpl. intros row ->. lia. }
  pose proof (computeWidths_safe _ _ (maxColumnWidths t) Hcover) as Hscan.
  split; [| split].
  - intros H. rewrite H in Hscan. now apply Hscan.
  - intros ws Hws H. rewrite Hws in Hscan. simpl in Hscan.
    assert (Hrows : Forall (fun row : list string => (length row <= length ws)%nat) (rows t)).
    { eapply Forall_impl; [exact Hmatch |]. simpl. intros row ->. lia. }
    pose proof (makeRowStrs_safe (rows t) ws Hrows) as Hsafe.
    rewrite H in Hsafe. now apply Hsafe.
  - intros H. unfold Print in H.
    destruct (_ || _); [discriminate |].
    destruct (alteredState t); [| discriminate].
    pose proof (buildFormat_safe t Hmatch) as Hsafe.
    destruct (buildFormat t) as [t'|e]; [discriminate |].
    simpl in H, Hsafe. inversion H; subst e. now apply Hsafe.
Qed.

(** The table of main.cpp has three cells in each of its four rows. *)
Lemma Print_in_bounds_when_rows_match_witness :
  exists t, run (removelast main_calls) new_table = Ok (t, [])
            /\ Print t <> Err OutOfBounds.
Proof.
  eexists. split; [vm_compute; reflexivity |].
  match goal with |- Print ?t <> _ =>
    apply (proj1 Print_in_bounds_when_rows_match t)
  end.
  repeat constructor.
Defined.

(** ** The layout, stage by stage *)

Lemma add_exact a b :
  Int.in_range (a + b) -> Int.add a b = a + b.
Proof. apply to_int_id. Qed.

Lemma computeTableWidth_fold (ws : list nat) : forall acc : nat,
  Z.of_nat (acc + sum_list_with (fun w => w + 3) ws)%nat <= Int.INT_MAX ->
  fold_left (fun tableWidth width => Int.add tableWidth (Int.add width 3))
    (map Z.of_nat ws) (Z.of_nat acc)
  = Z.of_nat (acc + sum_list_with (fun w => w + 3) ws)%nat.
Proof.
  induction ws as [|w ws IH]; intros acc Hfit; simpl in *.
  - f_equal. lia.
  - rewrite (add_exact (Z.of_nat w) 3)
      by int_lia.
    rewrite add_exact by int_lia.
    replace (Z.of_nat acc + (Z.of_nat w + 3)) with (Z.of_nat (acc + (w + 3))) by lia.
    rewrite IH by (rewrite <- Nat.add_assoc; exact Hfit).
    f_equal. lia.
Qed.

Lemma computeTableWidth_exact (ws : list nat) :
  Z.of_nat (total_width ws) <= Int.INT_MAX ->
  computeTableWidth (map Z.of_nat ws) = Z.of_nat (total_width ws).
Proof.
  unfold total_width, computeTableWidth. intros Hfit.
  pose proof (computeTableWidth_fold ws 0%nat) as Hfold.
  change (Z.of_nat 0) with 0 in Hfold. rewrite Nat.add_0_l in Hfold.
  rewrite Hfold by lia.
  rewrite add_exact by int_lia.
  lia.
Qed.

(** Every column is at least four places narrower than the table. *)
Lemma width_le_total (ws : list nat) i w :
  ws !! i = Some w -> (w + 4 <= total_width ws)%nat.
Proof.
  unfold total_width. revert i.
  induction ws as [|w' ws IH]; intros [|i] H; simpl in *; try discriminate.
  - inversion H; subst. lia.
  - specialize (IH i H). lia.
Qed.

Lemma segments_snoc wxs wx : segments (wxs ++ [wx]) = segments wxs +:+ segment wx.
Proof. unfold segments. now rewrite fold_left_app. Qed.

Lemma length_segment w text :
  (String.length text <= w)%nat -> String.length (segment (w, text)) = (w + 3)%nat.
Proof.
  intros Hle. unfold segment. simpl.
  rewrite !length_append, length_centered by exact Hle. simpl. lia.
Qed.

Lemma length_segments_acc wxs : forall acc,
  Forall (fun wx : nat * string => (String.length (snd wx) <= fst wx)%nat) wxs ->
  String.length (fold_left (fun acc wx => acc +:+ segment wx) wxs acc)
  = (String.length acc + sum_list_with (fun wx => fst wx + 3) wxs)%nat.
Proof.
  induction wxs as [|[w x] wxs IH]; intros acc Hall; simpl.
  - lia.
  - inversion Hall as [|? ? Hwx Hrest]; subst. simpl in Hwx.
    rewrite IH by exact Hrest.
    rewrite length_append, length_segment by exact Hwx. lia.
Qed.

Lemma sum_zip_widths (ws : list nat) : forall cells : list string,
  length cells = length ws ->
  sum_list_with (fun wx : nat * string => (fst wx + 3)%nat) (zip ws cells)
  = sum_list_with (fun w => (w + 3)%nat) ws.
Proof.
  induction ws as [|w ws IH]; intros [|x cells] Hlen; simpl in *;
    try reflexivity; try discriminate.
  rewrite IH by lia. reflexivity.
Qed.

(** A line of cells that fit their columns is as long as the table is
    wide. *)
Lemma length_table_line (ws : list nat) (cells : list string) :
  length cells = length ws ->
  (forall i w x, ws !! i = Some w -> cells !! i = Some x ->
     (String.length x <= w)%nat) ->
  String.length (table_line ws cells) = total_width ws.
Proof.
  intros Hlen Hfit. unfold table_line, segments, total_width.
  rewrite length_append, length_segments_acc.
  - rewrite sum_zip_widths by exact Hlen. simpl. lia.
  - apply Forall_lookup. intros i [w x] Hwx. simpl.
    apply lookup_zip_with_Some in Hwx as (w' & x' & Heq & Hw & Hx).
    inversion Heq; subst. eauto.
Qed.

Lemma length_divider_line W : String.length (divider_line W) = W.
Proof. apply length_fill. Qed.

Lemma length_title_line W ttl :
  (String.length ttl + 4 <= W)%nat -> String.length (title_line W ttl) = W.
Proof.
  intros Hle. unfold title_line.
  rewrite !length_append, length_centered by lia. simpl. lia.
Qed.

Lemma zip_take_snoc (ws : list nat) (cells : list string) k w x :
  ws !! k = Some w -> cells !! k = Some x ->
  take (S k) (zip ws cells) = take k (zip ws cells) ++ [(w, x)].
Proof.
  intros Hw Hx. apply take_S_r.
  apply lookup_zip_with_Some. eauto.
Qed.

(** The header loop. *)
Lemma makeColumnStr_exact (names : list string) (ws : list nat) :
  length ws = length names ->
  (forall i w x, ws !! i = Some w -> names !! i = Some x ->
     (String.length x <= w)%nat /\ Z.of_nat w < Int.INT_MAX) ->
  makeColumnStr names (map Z.of_nat ws) = Ok (table_line ws names).
Proof.
  intros Hlen Hfit. unfold makeColumnStr.
  set (body := fun (i : nat) (columnStr : string) => _).
  destruct (wp_Ok no_error (for_loop body 0 (length names) "")
              ((fun k acc => acc = segments (take k (zip ws names))) (0 + length names)%nat))
    as (acc & Hacc & Heq).
  - apply (wp_for_loop no_error (fun k acc => acc = segments (take k (zip ws names)))).
    + reflexivity.
    + intros k acc Hk ->. unfold body.
      apply wp_bind. apply wp_at; [lia |]. intros name Hname.
      apply wp_bind. apply wp_at; [rewrite length_map; lia |]. intros w Hw.
      rewrite list_lookup_fmap in Hw.
      destruct (ws !! k) as [wn|] eqn:Hwn; [| discriminate].
      simpl in Hw. inversion Hw; subst w. clear Hw.
      destruct (Hfit k wn name Hwn Hname) as [Hle Hmax].
      rewrite columnSegment_centered by assumption. simpl.
      rewrite (zip_take_snoc ws names k wn name Hwn Hname).
      now rewrite segments_snoc.
  - intros e He. exact He.
  - rewrite Hacc. simpl. unfold table_line. rewrite Heq.
    rewrite take_ge; [reflexivity |].
    rewrite length_zip_with. lia.
Qed.

(** The row loop. *)
Lemma makeRowStrs_exact (rws : list (list string)) (ws : list nat) :
  (forall r row e x, rws !! r = Some row -> row !! e = Some x ->
     exists w, ws !! e = Some w
               /\ (String.length x <= w)%nat /\ Z.of_nat w < Int.INT_MAX) ->
  makeRowStrs rws (map Z.of_nat ws) = Ok (map (table_line ws) rws).
Proof.
  intros Hfit. unfold makeRowStrs.
  set (body := fun (r : nat) (rowStrs : list string) => _).
  pose (Inv := fun (r : nat) (rs : list string) =>
    length rs = length rws /\
    forall j row, rws !! j = Some row ->
      rs !! j = Some (if decide (j < r)%nat then table_line ws row else ""%string)).
  destruct (wp_Ok no_error (for_loop body 0 (length rws) (replicate (length rws) ""%string))
              (Inv (0 + length rws)%nat)) as (rs & Hrs & Hlen & Hlook).
  - apply wp_for_loop.
    + split; [apply length_replicate |]. intros j row Hj.
      rewrite decide_False by lia. apply lookup_replicate_2.
      eapply lookup_lt_Some; eauto.
    + intros r rs Hr [Hlen Hlook]. unfold body.
      apply wp_bind. apply wp_at; [lia |]. intros row Hrow.
      pose (Inv' := fun (e : nat) (rs' : list string) =>
        length rs' = length rws /\
        rs' !! r = Some (segments (take e (zip ws row))) /\
        forall j, j <> r -> rs' !! j = rs !! j).
      apply wp_bind. eapply wp_mono.
      * apply (wp_for_loop no_error Inv').
        -- split; [exact Hlen | split; [| reflexivity]].
           rewrite (Hlook r row Hrow). now rewrite decide_False by lia.
        -- intros e rs' He (Hlen' & Hcur & Hother).
           apply wp_bind. apply wp_at; [lia |]. intros row' Hrow'.
           rewrite Hrow in Hrow'. inversion Hrow'; subst row'.
           apply wp_bind. apply wp_at; [lia |]. intros x Hx.
           destruct (Hfit r row e x Hrow Hx) as (w & Hw & Hle & Hmax).
           apply wp_bind. apply wp_at.
           { rewrite length_map. eapply lookup_lt_Some; eauto. }
           intros w' Hw'. rewrite list_lookup_fmap, Hw in Hw'.
           simpl in Hw'. inversion Hw'; subst w'. clear Hw'.
           rewrite rowSegment_centered by assumption. cbn [bind].
           apply wp_bind. apply wp_at; [lia |]. intros cur Hcur'.
           rewrite Hcur in Hcur'. inversion Hcur'; subst cur.
           apply wp_set_at; [lia |].
           split; [now rewrite length_insert | split].
           ++ rewrite list_lookup_insert_eq by lia.
              rewrite (zip_take_snoc ws row e w x Hw Hx).
              now rewrite segments_snoc.
           ++ intros j Hj. rewrite list_lookup_insert_ne by congruence.
              now apply Hother.
      * intros rs' (Hlen' & Hcur & Hother). cbv beta.
        apply wp_bind. apply wp_at; [lia |]. intros cur Hcur'.
        rewrite Hcur in Hcur'. inversion Hcur'; subst cur.
        apply wp_set_at; [lia |].
        split; [now rewrite length_insert |].
        intros j row' Hrow'. destruct (decide (j = r)) as [-> | Hne].
        -- rewrite list_lookup_insert_eq by lia.
           rewrite Hrow in Hrow'. inversion Hrow'; subst row'.
           rewrite decide_True by lia. unfold table_line.
           cbn [Nat.add]. now rewrite take_ge by (rewrite length_zip_with; lia).
        -- rewrite list_lookup_insert_ne by congruence.
           rewrite Hother by exact Hne. rewrite (Hlook j row' Hrow').
           destruct (decide (j < r)%nat), (decide (j < S r)%nat);
             try reflexivity; lia.
  - intros e He. exact He.
  - rewrite Hrs. f_equal. apply list_eq. intros j.
    rewrite list_lookup_fmap.
    destruct (rws !! j) as [row|] eqn:Hrow.
    + rewrite (Hlook j row Hrow). simpl.
      rewrite decide_True; [reflexivity |].
      pose proof (lookup_lt_Some _ _ _ Hrow). lia.
    + simpl. apply lookup_ge_None_2. apply lookup_ge_None_1 in Hrow. lia.
Qed.

Lemma rows_match_cover t : rows_match t -> rows_cover (columnNames t) (rows t).
Proof.
  intros Hmatch. unfold rows_cover.
  eapply Forall_impl; [exact Hmatch |]. simpl. intros row ->. lia.
Qed.

Lemma table_width_fits t i :
  Z.of_nat (table_width t) <= Int.INT_MAX -> (i < length (columnNames t))%nat ->
  Z.of_nat (column_width (columnNames t) (rows t) i) < Int.INT_MAX.
Proof.
  intros Hfit Hi.
  pose proof (width_le_total _ i _ (lookup_column_widths (columnNames t) (rows t) i Hi)).
  unfold table_width in Hfit. lia.
Qed.

(** With rows that match, a title that fits and a table width that is an
    [int], the format data are built and are the closed form. *)
Lemma buildFormat_exact t :
  rows_match t ->
  (String.length (title t) + 4 <= table_width t)%nat ->
  Z.of_nat (table_width t) <= Int.INT_MAX ->
  buildFormat t = Ok (formatted t).
Proof.
  intros Hmatch Htitle Hfit. unfold buildFormat.
  rewrite computeWidths_exact.
  2: { now apply rows_match_cover. }
  2: { intros i Hi. pose proof (table_width_fits t i Hfit Hi). lia. }
  cbn [bind]. fold (table_width t).
  rewrite computeTableWidth_exact by exact Hfit. fold (table_width t).
  rewrite make_string_nonneg by lia. cbn [bind]. rewrite Nat2Z.id.
  rewrite makeTitleStr_centered by assumption. cbn [bind].
  rewrite makeColumnStr_exact.
  2: { apply length_column_widths. }
  2: { intros i w x Hw Hx.
       assert (Hi : (i < length (columnNames t))%nat) by (eapply lookup_lt_Some; eauto).
       rewrite lookup_column_widths in Hw by exact Hi. inversion Hw; subst w.
       split; [| now apply table_width_fits].
       rewrite <- (cell_length_lookup _ _ _ Hx). apply name_le_column_width. }
  cbn [bind].
  rewrite makeRowStrs_exact; [reflexivity |].
  intros r row e x Hrow Hx.
  pose proof (Forall_lookup_1 (fun row => length row = length (columnNames t))
                (rows t) r row Hmatch Hrow) as Hrowlen. simpl in Hrowlen.
  assert (He : (e < length (columnNames t))%nat)
    by (rewrite <- Hrowlen; eapply lookup_lt_Some; eauto).
  exists (column_width (columnNames t) (rows t) e).
  split; [now apply lookup_column_widths | split; [| now apply table_width_fits]].
  rewrite <- (cell_length_lookup _ _ _ Hx).
  eapply cell_le_column_width; eauto.
Qed.

Lemma table_lines_formatted t :
  table_lines (formatted t) = map Line (layout_lines t).
Proof.
  unfold table_lines, layout_lines, formatted. cbn [fullDividerStr titleStr columnStr rowStrs].
  rewrite !map_app, map_map. reflexivity.
Qed.

Lemma length_layout_lines t : length (layout_lines t) = (6 + length (rows t))%nat.
Proof.
  unfold layout_lines. rewrite !length_app, length_map. simpl. lia.
Qed.

(** Every line of the layout is as long as the table is wide. *)
Lemma layout_lines_width t :
  rows_match t ->
  (String.length (title t) + 4 <= table_width t)%nat ->
  Forall (fun l => String.length l = table_width t) (layout_lines t).
Proof.
  intros Hmatch Htitle. unfold layout_lines. fold (table_width t).
  assert (Hnames : String.length (table_line (column_widths (columnNames t) (rows t))
                                    (columnNames t)) = table_width t).
  { apply length_table_line; [now rewrite length_column_widths |].
    intros i w x Hw Hx.
    rewrite lookup_column_widths in Hw by (eapply lookup_lt_Some; eauto).
    inversion Hw; subst w.
    rewrite <- (cell_length_lookup _ _ _ Hx). apply name_le_column_width. }
  repeat (apply Forall_cons; split;
          [first [apply length_divider_line | now apply length_title_line | exact Hnames] |]).
  apply Forall_app. split.
  - apply Forall_lookup. intros r l Hl. rewrite list_lookup_fmap in Hl.
    destruct (rows t !! r) as [row|] eqn:Hrow; [| discriminate].
    simpl in Hl. inversion Hl; subst l.
    pose proof (Forall_lookup_1 (fun row => length row = length (columnNames t))
                  (rows t) r row Hmatch Hrow) as Hrowlen. simpl in Hrowlen.
    apply length_table_line; [now rewrite length_column_widths |].
    intros i w x Hw Hx.
    rewrite lookup_column_widths in Hw
      by (rewrite <- Hrowlen; eapply lookup_lt_Some; eauto).
    inversion Hw; subst w.
    rewrite <- (cell_length_lookup _ _ _ Hx). eapply cell_le_column_width; eauto.
  - apply Forall_cons. split; [apply length_divider_line | constructor].
Qed.

(** ** The stored format of a reachable table *)

Lemma buildFormat_same_data t1 t2 :
  same_data t1 t2 ->
  buildFormat t2 =
    match buildFormat t1 with
    | Ok t1' => Ok (with_alteredState (alteredState t2) t1')
    | Err e => Err e
    end.
Proof.
  destruct t1 as [ttl1 ns1 rs1 st1 al1 mw1 d1 ts1 cs1 rws1],
           t2 as [ttl2 ns2 rs2 st2 al2 mw2 d2 ts2 cs2 rws2].
  unfold same_data. cbn [title columnNames rows startedAddingRows].
  intros (-> & -> & -> & ->). unfold buildFormat.
  cbn [title columnNames rows startedAddingRows alteredState maxColumnWidths].
  rewrite (computeWidths_fresh ns2 rs2 mw2 mw1).
  destruct (computeWidths ns2 rs2 mw1) as [ws|e]; cbn [bind]; [| reflexivity].
  destruct (make_string _ _) as [dv|e]; cbn [bind]; [| reflexivity].
  destruct (makeTitleStr _ _) as [tl|e]; cbn [bind]; [| reflexivity].
  destruct (makeColumnStr _ _) as [cl|e]; cbn [bind]; [| reflexivity].
  destruct (makeRowStrs _ _) as [rl|e]; cbn [bind]; reflexivity.
Qed.

Lemma same_data_refl t : same_data t t.
Proof. unfold same_data. auto. Qed.


Lemma buildFormat_alteredState t t' :
  buildFormat t = Ok t' -> alteredState t' = alteredState t /\ same_data t t'.
Proof.
  unfold buildFormat. intros H.
  apply bind_Ok_inv in H as (ws & _ & H).
  apply bind_Ok_inv in H as (dv & _ & H).
  apply bind_Ok_inv in H as (tl & _ & H).
  apply bind_Ok_inv in H as (cs & _ & H).
  apply bind_Ok_inv in H as (rs & _ & H).
  inversion H. unfold same_data. simpl. auto.
Qed.

(** Building the format again on its own result changes nothing. *)
Lemma buildFormat_idempotent t t' b :
  buildFormat t = Ok t' ->
  buildFormat (with_alteredState b t') = Ok (with_alteredState b t').
Proof.
  intros H. destruct (buildFormat_alteredState t t' H) as [_ Hsame].
  assert (Hsame' : same_data t (with_alteredState b t')).
  { destruct Hsame as (H1 & H2 & H3 & H4). unfold same_data. simpl. auto. }
  rewrite (buildFormat_same_data t (with_alteredState b t') Hsame'), H.
  reflexivity.
Qed.

Lemma incomplete_same_data t1 t2 : same_data t1 t2 -> incomplete t1 = incomplete t2.
Proof. intros (H1 & H2 & H3 & _). unfold incomplete. now rewrite H1, H2, H3. Qed.

Lemma call_format_valid c t t' out :
  format_valid t -> call c t = Ok (t', out) -> format_valid t'.
Proof.
  intros Hvalid Hcall. destruct c; simpl in Hcall.
  - inversion Hcall; subst. intros H. discriminate.
  - unfold AddColumn in Hcall. destruct (startedAddingRows t);
      inversion Hcall; subst; [exact Hvalid | intros H; discriminate].
  - unfold AddRow in Hcall. destruct (negb _);
      inversion Hcall; subst; [exact Hvalid | intros H; discriminate].
  - rewrite AddRows_eq in Hcall. inversion Hcall; subst. intros H. discriminate.
  - unfold Print in Hcall. fold (incomplete t) in Hcall.
    destruct (incomplete t) eqn:Hinc.
    + inversion Hcall; subst. exact Hvalid.
    + apply bind_Ok_inv in Hcall as (t1 & Ht1 & Hcall).
      inversion Hcall; subst t' out. intros _. right.
      change (mark_printed t1) with (with_alteredState false t1).
      destruct (alteredState t) eqn:Halt.
      * now apply (buildFormat_idempotent t).
      * inversion Ht1; subst t1.
        destruct (Hvalid Halt) as [Hi | Hb]; [congruence |].
        now apply (buildFormat_idempotent t).
  - inversion Hcall; subst. intros H. discriminate.
Qed.

Lemma run_format_valid cs : forall t t' out,
  format_valid t -> run cs t = Ok (t', out) -> format_valid t'.
Proof.
  induction cs as [|c cs IH]; intros t t' out Hvalid Hrun; simpl in Hrun.
  - inversion Hrun; subst. exact Hvalid.
  - apply bind_Ok_inv in Hrun as ([t1 o1] & Hcall & Hrun).
    apply bind_Ok_inv in Hrun as ([t2 o2] & Hrest & Hrun).
    inversion Hrun; subst. simpl in *.
    eapply IH; [| exact Hrest]. eapply call_format_valid; eauto.
Qed.

Lemma reachable_format_valid t : reachable t -> format_valid t.
Proof.
  intros (cs & out & Hrun). eapply run_format_valid; [| exact Hrun].
  intros _. left. reflexivity.
Qed.

(** ** The computed column widths *)

(** C2 as claimed fails after [AddRows] has stored a short row: the scan
    reads a cell the row does not have, and no width is computed. *)
Lemma widths_after_short_row_undefined :
  run short_row_calls new_table = Ok (short_row_table, [RowSizeMismatch 1 "T" 2])
  /\ computeWidths (columnNames short_row_table) (rows short_row_table)
       (maxColumnWidths short_row_table) = Err OutOfBounds
  /\ ~ (exists ws, computeWidths (columnNames short_row_table) (rows short_row_table)
                     (maxColumnWidths short_row_table) = Ok ws
                   /\ ws !! 1%nat = Some (Z.of_nat (column_width (columnNames short_row_table)
                                                  (rows short_row_table) 1))).
Proof.
  split; [reflexivity | split; [reflexivity |]].
  intros (ws & H & _). vm_compute in H. discriminate.
Qed.

(** C2, amended: whenever every stored row has at least as many cells as
    there are columns (and the lengths involved are [int]s), the scan
    succeeds and the width it computes for column [i] is the larger of the
    length of the column's name and the largest length of cell [i] over the
    stored rows; this is the vector the table holds after
    [Print]. *)
Theorem column_width_is_max (t : PrintTable) :
  rows_cover (columnNames t) (rows t) ->
  widths_fit (columnNames t) (rows t) ->
  exists ws,
    computeWidths (columnNames t) (rows t) (maxColumnWidths t) = Ok ws
    /\ length ws = length (columnNames t)
    /\ (forall i name, columnNames t !! i = Some name ->
          ws !! i = Some (Z.of_nat
            (Nat.max (String.length name) (max_list_with (cell_length i) (rows t)))))
    /\ (forall t' out, reachable t -> incomplete t = false ->
          Print t = Ok (t', out) -> maxColumnWidths t' = ws).
Proof.
  intros Hcover Hfit.
  exists (map Z.of_nat (column_widths (columnNames t) (rows t))).
  pose proof (computeWidths_exact _ _ (maxColumnWidths t) Hcover Hfit) as Hws.
  split; [exact Hws | split; [| split]].
  - now rewrite length_map, length_column_widths.
  - intros i name Hname. rewrite list_lookup_fmap.
    rewrite lookup_column_widths by (eapply lookup_lt_Some; eauto).
    simpl. unfold column_width. now rewrite (cell_length_lookup _ _ _ Hname).
  - intros t' out Hreach Hinc HP. rewrite Print_complete in HP by exact Hinc.
    apply bind_Ok_inv in HP as (t1 & Hb & HP).
    assert (Hw : computeWidths (columnNames t) (rows t) (maxColumnWidths t)
                 = Ok (maxColumnWidths t1)).
    { destruct (alteredState t) eqn:Halt.
      - now apply buildFormat_widths.
      - inversion Hb; subst t1. apply buildFormat_widths.
        destruct (reachable_format_valid t Hreach Halt); congruence. }
    rewrite Hws in Hw. inversion Hw as [Hw']. inversion HP. simpl. now rewrite Hw'.
Qed.

(** The table of main.cpp: widths 6, 10 and 12. *)
Lemma column_width_is_max_witness :
  exists t, run main_calls new_table
            = Ok (t, [Line "--------------------------------------";
                      Line "|      My Friends' Gaming GPUs       |";
                      Line "--------------------------------------";
                      Line "| Vendor |  GPU Name  | Release Year |";
                      Line "--------------------------------------";
                      Line "| Nvidia | GTX 980 Ti |     2015     |";
                      Line "| Nvidia |  GTX 1070  |     2016     |";
                      Line "| Nvidia |  GTX 1080  |     2016     |";
                      Line "| Nvidia |  RTX 2080  |     2018     |";
                      Line "--------------------------------------"])
    /\ exists ws, computeWidths (columnNames t) (rows t) (maxColumnWidths t) = Ok ws
                  /\ ws !! 1%nat = Some 10.
Proof.
  eexists. split; [vm_compute; reflexivity |].
  match goal with |- exists ws, computeWidths (columnNames ?t) _ _ = _ /\ _ =>
    assert (Hcover : rows_cover (columnNames t) (rows t))
      by (repeat constructor; simpl; lia);
    assert (Hfit : widths_fit (columnNames t) (rows t))
      by (intros [|[|[|i]]] Hi; vm_compute; try discriminate; simpl in Hi; lia);
    destruct (column_width_is_max t Hcover Hfit) as (ws & Hws & _ & Hlook & _)
  end.
  exists ws. split; [exact Hws |].
  apply (Hlook 1%nat "GPU Name"%string). reflexivity.
Defined.

(** ** What reaches standard output *)

Lemma append_assoc (s1 s2 s3 : string) :
  (s1 +:+ s2) +:+ s3 = s1 +:+ (s2 +:+ s3).
Proof.
  induction s1 as [|c s1 IH]; [reflexivity |].
  rewrite !append_cons. now rewrite IH.
Qed.

Lemma plainb_cons c s :
  plainb (String c s) = true ->
  Ascii.eqb c LF = false /\ Ascii.eqb c NUL = false /\ plainb s = true.
Proof.
  simpl. intros H. apply andb_true_iff in H as [H Hs].
  apply andb_true_iff in H as [H1 H2].
  apply negb_true_iff in H1. apply negb_true_iff in H2. auto.
Qed.

Lemma plainb_append s1 s2 :
  plainb (s1 +:+ s2) = true <-> plainb s1 = true /\ plainb s2 = true.
Proof.
  induction s1 as [|c s1 IH]; [rewrite append_nil_l; simpl; tauto |].
  rewrite append_cons. simpl. rewrite !andb_true_iff, IH. tauto.
Qed.

Lemma plainb_fill n c :
  Ascii.eqb c LF = false -> Ascii.eqb c NUL = false -> plainb (fill n c) = true.
Proof. intros H1 H2. induction n as [|n IH]; simpl; [reflexivity |]. now rewrite H1, H2, IH. Qed.

(** Under [%s] a plain text is written whole. *)
Lemma c_str_plain s : plainb s = true -> c_str s = s.
Proof.
  induction s as [|c s IH]; [reflexivity |]. intros H.
  apply plainb_cons in H as (_ & Hnul & Hs). simpl. rewrite Hnul. now rewrite IH.
Qed.

(** Reading a plain text up to the line feed after it yields one line. *)
Lemma lines_acc_line text : forall cur rest,
  plainb text = true ->
  lines_acc cur (text +:+ String LF rest) = (cur +:+ text) :: lines_acc ""%string rest.
Proof.
  induction text as [|c text IH]; intros cur rest Hplain.
  - rewrite append_nil_l, append_nil_r. reflexivity.
  - apply plainb_cons in Hplain as (Hlf & _ & Hs).
    rewrite append_cons. simpl. rewrite Hlf. rewrite IH by exact Hs.
    now rewrite append_assoc.
Qed.

(** Plain lines printed one by one are the lines of standard output. *)
Lemma stdout_lines_plain (ls : list string) :
  Forall (fun l => plainb l = true) ls -> stdout_lines (map Line ls) = ls.
Proof.
  unfold stdout_lines. induction 1 as [|l ls Hl _ IH]; [reflexivity |].
  cbn [map stdout fold_right written]. fold (stdout (map Line ls)).
  rewrite c_str_plain by exact Hl.
  rewrite append_assoc, append_cons, append_nil_l.
  rewrite lines_acc_line by exact Hl.
  rewrite append_nil_l. now rewrite IH.
Qed.

Lemma plainb_centered W text : plainb text = true -> plainb (centered W text) = true.
Proof.
  intros H. unfold centered. rewrite !plainb_append.
  repeat split; [now apply plainb_fill | exact H | now apply plainb_fill].
Qed.

Lemma plainb_segments_acc wxs : forall acc,
  plainb acc = true ->
  Forall (fun wx : nat * string => plainb (snd wx) = true) wxs ->
  plainb (fold_left (fun acc wx => acc +:+ segment wx) wxs acc) = true.
Proof.
  induction wxs as [|[w x] wxs IH]; intros acc Hacc Hall; simpl; [exact Hacc |].
  inversion Hall as [|? ? Hx Hrest]; subst. simpl in Hx.
  apply IH; [| exact Hrest]. unfold segment. simpl.
  rewrite !plainb_append. repeat split; try reflexivity; try exact Hacc.
  now apply plainb_centered.
Qed.

Lemma plainb_table_line ws cells :
  Forall (fun x => plainb x = true) cells -> plainb (table_line ws cells) = true.
Proof.
  intros Hcells. unfold table_line, segments. rewrite plainb_append.
  split; [| reflexivity]. apply plainb_segments_acc; [reflexivity |].
  apply Forall_lookup. intros i [w x] Hwx. simpl.
  apply lookup_zip_with_Some in Hwx as (w' & x' & Heq & _ & Hx).
  inversion Heq; subst. exact (Forall_lookup_1 _ _ _ _ Hcells Hx).
Qed.

Lemma plainb_title_line W ttl : plainb ttl = true -> plainb (title_line W ttl) = true.
Proof.
  intros H. unfold title_line. rewrite !plainb_append.
  repeat split; try reflexivity. now apply plainb_centered.
Qed.

Lemma forallb_Forall {A} (f : A -> bool) (l : list A) :
  forallb f l = true -> Forall (fun x => f x = true) l.
Proof.
  induction l as [|x l IH]; simpl; intros H; [constructor |].
  apply andb_true_iff in H as [Hx Hl]. constructor; auto.
Qed.

Lemma plain_table_inv t :
  plain_table t = true ->
  plainb (title t) = true
  /\ Forall (fun x => plainb x = true) (columnNames t)
  /\ Forall (fun row => Forall (fun x => plainb x = true) row) (rows t).
Proof.
  unfold plain_table. intros H.
  apply andb_true_iff in H as [H Hr]. apply andb_true_iff in H as [Ht Hc].
  split; [exact Ht |]. split; [now apply forallb_Forall |].
  apply forallb_Forall in Hr.
  eapply Forall_impl; [exact Hr |]. simpl. intros row. apply forallb_Forall.
Qed.

(** The lines of the layout of a plain table are plain. *)
Lemma layout_lines_plain t :
  plain_table t = true -> Forall (fun l => plainb l = true) (layout_lines t).
Proof.
  intros Hplain. destruct (plain_table_inv t Hplain) as (Ht & Hc & Hr).
  unfold layout_lines. cbv zeta.
  repeat (apply Forall_cons; split;
          [first [now apply plainb_fill | now apply plainb_title_line
                 | now apply plainb_table_line] |]).
  apply Forall_app. split.
  - apply Forall_fmap. eapply Forall_impl; [exact Hr |]. simpl.
    intros row Hrow. now apply plainb_table_line.
  - apply Forall_cons. split; [now apply plainb_fill | constructor].
Qed.

(** What a plain table sends to standard output when its layout is
    printed. *)
Lemma stdout_lines_layout t :
  plain_table t = true -> stdout_lines (map Line (layout_lines t)) = layout_lines t.
Proof. intros Hplain. now apply stdout_lines_plain, layout_lines_plain. Qed.

(** ** Printing a complete table *)

Lemma incomplete_false t :
  title t <> ""%string -> columnNames t <> [] -> rows t <> [] -> incomplete t = false.
Proof.
  intros Ht Hc Hr. unfold incomplete.
  destruct (title t); [congruence |]. destruct (columnNames t); [congruence |].
  destruct (rows t); [congruence |]. reflexivity.
Qed.

(** C1 as claimed fails.  A table with one row is printed in seven
    lines, not six; with a title of five characters over a content width
    of four, the title line is nine characters long in a table eight wide
    (with a longer title still, [Print] ends in an error and prints
    nothing); and a line feed in a cell cuts its row in two, so that
    standard output holds eight lines, two of them three characters long in
    a table seven wide. *)
Lemma Print_line_count_and_long_title :
  (exists t t' out,
     run small_calls new_table = Ok (t, [])
     /\ title t <> ""%string /\ length (columnNames t) = 2%nat /\ length (rows t) = 1%nat
     /\ rows_match t
     /\ Print t = Ok (t', out)
     /\ length out = 7%nat /\ length out <> (5 + length (rows t))%nat)
  /\ (exists t t' out,
        run wide_title_calls new_table = Ok (t, [])
        /\ title t <> ""%string /\ length (columnNames t) = 1%nat /\ length (rows t) = 1%nat
        /\ rows_match t
        /\ Print t = Ok (t', out)
        /\ table_width t = 8%nat
        /\ out !! 1%nat = Some (Line "| Hello |")
        /\ String.length "| Hello |" <> table_width t)
  /\ (run long_title_calls new_table = Ok (long_title_table, [])
      /\ rows_match long_title_table
      /\ Print long_title_table = Err LengthError)
  /\ (exists t t' out,
        run line_feed_calls new_table = Ok (t, [])
        /\ title t <> ""%string /\ length (columnNames t) = 1%nat /\ length (rows t) = 1%nat
        /\ rows_match t
        /\ Print t = Ok (t', out)
        /\ table_width t = 7%nat
        /\ map String.length (stdout_lines out) = [7; 7; 7; 7; 7; 3; 3; 7]%nat).
Proof.
  split; [| split; [| split]].
  - do 3 eexists. split; [reflexivity |].
    split; [discriminate |]. split; [reflexivity |]. split; [reflexivity |].
    split; [repeat constructor |]. split; [vm_compute; reflexivity |].
    split; [reflexivity | simpl; lia].
  - do 3 eexists. split; [reflexivity |].
    split; [discriminate |]. split; [reflexivity |]. split; [reflexivity |].
    split; [repeat constructor |]. split; [vm_compute; reflexivity |].
    split; [reflexivity |]. split; [reflexivity |]. vm_compute. lia.
  - split; [reflexivity |]. split; [repeat constructor | reflexivity].
  - do 3 eexists. split; [reflexivity |].
    split; [discriminate |]. split; [reflexivity |]. split; [reflexivity |].
    split; [repeat constructor |]. split; [vm_compute; reflexivity |].
    split; [reflexivity |]. vm_compute. reflexivity.
Qed.

(** C1, amended: on a reachable table with a title, a column and a row,
    whose rows all have as many cells as there are columns, whose texts
    hold neither a line feed nor a NUL, whose title has at most
    [table width - 4] characters and whose table width is an [int], [Print]
    writes exactly [6 + rowCount] lines to standard output (divider, title,
    divider, header, divider, the rows, divider), nothing else, and every
    line is as long as the table is wide: the sum over the columns of
    [w + 3], plus 1. *)
Theorem Print_emits_uniform_lines (t : PrintTable) :
  reachable t ->
  title t <> ""%string -> columnNames t <> [] -> rows t <> [] ->
  rows_match t ->
  plain_table t = true ->
  (String.length (title t) + 4 <= table_width t)%nat ->
  Z.of_nat (table_width t) <= Int.INT_MAX ->
  exists t' out,
    Print t = Ok (t', out)
    /\ out = map Line (layout_lines t)
    /\ stdout_lines out = layout_lines t
    /\ length (stdout_lines out) = (6 + length (rows t))%nat
    /\ Forall (fun l => String.length l = table_width t) (stdout_lines out)
    /\ table_width t
       = (sum_list_with (fun w => w + 3) (column_widths (columnNames t) (rows t)) + 1)%nat.
Proof.
  intros Hreach Httl Hcols Hrows Hmatch Hplain Hfits Hint.
  pose proof (buildFormat_exact t Hmatch Hfits Hint) as Hbuild.
  assert (Hprint : exists t', Print t = Ok (t', map Line (layout_lines t))).
  { rewrite Print_complete by (now apply incomplete_false).
    destruct (alteredState t) eqn:Halt.
    - rewrite Hbuild. cbn [bind]. rewrite table_lines_formatted. eauto.
    - cbn [bind].
      destruct (reachable_format_valid t Hreach Halt) as [Hinc | Hsame].
      + rewrite incomplete_false in Hinc by assumption. discriminate.
      + assert (Heq : t = formatted t) by congruence.
        rewrite <- table_lines_formatted, <- Heq. eauto. }
  destruct Hprint as [t' Hprint].
  exists t', (map Line (layout_lines t)).
  rewrite stdout_lines_layout by exact Hplain.
  split; [exact Hprint |]. split; [reflexivity |]. split; [reflexivity |].
  split; [apply length_layout_lines |].
  split; [now apply layout_lines_width | reflexivity].
Qed.

(** The table of main.cpp: ten lines of 38 characters. *)
Lemma Print_emits_uniform_lines_witness :
  exists t t' out,
    run (removelast main_calls) new_table = Ok (t, [])
    /\ Print t = Ok (t', out)
    /\ length (stdout_lines out) = 10%nat
    /\ Forall (fun l => String.length l = 38%nat) (stdout_lines out).
Proof.
  eexists.
  match goal with |- exists t' out, run ?cs _ = Ok (?t, _) /\ _ =>
    let T := eval vm_compute in
      (match run cs new_table with Ok (t0, _) => t0 | Err _ => new_table end) in
    unify t T;
    assert (Hreach : reachable T) by (exists cs, []; vm_compute; reflexivity);
    assert (Httl : title T <> ""%string) by discriminate;
    assert (Hcols : columnNames T <> []) by discriminate;
    assert (Hrows : rows T <> []) by discriminate;
    assert (Hmatch : rows_match T) by (repeat constructor);
    assert (Hplain : plain_table T = true) by (vm_compute; reflexivity);
    assert (Hfits : (String.length (title T) + 4 <= table_width T)%nat)
      by (vm_compute; lia);
    assert (Hint : Z.of_nat (table_width T) <= Int.INT_MAX)
      by (vm_compute; discriminate);
    destruct (Print_emits_uniform_lines T Hreach Httl Hcols Hrows Hmatch Hplain
                Hfits Hint)
      as (t' & out & Hprint & _ & _ & Hlen & Hall & _)
  end.
  exists t', out.
  split; [vm_compute; reflexivity |]. split; [exact Hprint |].
  split; [exact Hlen | exact Hall].
Defined.

(** ** Reset *)









(** * Further properties of the code *)

(** ** What [Print] leaves in the table *)

Lemma mark_printed_same_data t : same_data t (mark_printed t).
Proof. unfold same_data. simpl. auto. Qed.

Lemma same_data_trans t1 t2 t3 : same_data t1 t2 -> same_data t2 t3 -> same_data t1 t3.
Proof. unfold same_data. intros (?&?&?&?) (?&?&?&?). repeat split; congruence. Qed.

(** [Print] returns a table with the same title, columns, rows and lock. *)
Lemma Print_keeps_same_data t t' out :
  Print t = Ok (t', out) ->
  same_data t t'.
Proof.
  intros HP. destruct (incomplete t) eqn:Hinc.
  - rewrite Print_incomplete in HP by exact Hinc. inversion HP; subst. apply same_data_refl.
  - rewrite Print_complete in HP by exact Hinc.
    apply bind_Ok_inv in HP as (t1 & Ht1 & HP). inversion HP; subst t' out.
    apply same_data_trans with t1; [| apply mark_printed_same_data].
    destruct (alteredState t).
    + now apply buildFormat_alteredState.
    + inversion Ht1. apply same_data_refl.
Qed.

(** [Print] changes neither the title, nor the columns, nor the rows, nor
    the column lock: an incomplete table comes back as it was, a complete
    one with [alteredState] cleared. *)
Theorem Print_keeps_data (t t' : PrintTable) (out : list Event) :
  Print t = Ok (t', out) ->
  same_data t t'
  /\ (incomplete t = true -> t' = t)
  /\ (incomplete t = false -> alteredState t' = false).
Proof.
  intros HP. split; [exact (Print_keeps_same_data t t' out HP) |].
  destruct (incomplete t) eqn:Hinc.
  - rewrite Print_incomplete in HP by exact Hinc. inversion HP; subst.
    split; [reflexivity | discriminate].
  - rewrite Print_complete in HP by exact Hinc.
    apply bind_Ok_inv in HP as (t1 & Ht1 & HP). inversion HP; subst t' out.
    split; [discriminate | reflexivity].
Qed.

Lemma Print_keeps_data_witness :
  exists t t' out,
    Print t = Ok (t', out)
    /\ same_data t t' /\ alteredState t = true /\ alteredState t' = false.
Proof.
  exists (fst (AddRow ["x"; "y"]%string
                (fst (AddColumn "BB" (fst (AddColumn "A" (fst (SetTitle "T" new_table)))))))).
  do 2 eexists.
  match goal with |- Print ?t = Ok (?t', ?out) /\ _ =>
    assert (HP : Print t = Ok (t', out)) by (vm_compute; reflexivity);
    destruct (Print_keeps_data t _ _ HP) as (Hsame & _ & Hclean)
  end.
  split; [exact HP |]. split; [exact Hsame |]. split; [reflexivity |].
  apply Hclean. reflexivity.
Defined.

(** Printing a second time, with no call in between, writes the same
    output again and returns the very table the first [Print] returned. *)
Theorem Print_twice (t t' : PrintTable) (out : list Event) :
  Print t = Ok (t', out) -> Print t' = Ok (t', out).
Proof.
  intros HP. destruct (incomplete t) eqn:Hinc.
  - rewrite Print_incomplete in HP by exact Hinc. inversion HP; subst.
    now apply Print_incomplete.
  - assert (Hsame : same_data t t') by (exact (Print_keeps_same_data t t' out HP)).
    rewrite Print_complete in HP by exact Hinc.
    apply bind_Ok_inv in HP as (t1 & _ & HP). inversion HP; subst t' out.
    rewrite Print_complete by (now rewrite <- (incomplete_same_data _ _ Hsame)).
    cbn [mark_printed alteredState bind]. now destruct t1.
Qed.

Lemma Print_twice_witness :
  exists t t' out,
    run small_calls new_table = Ok (t, [])
    /\ Print t = Ok (t', out) /\ Print t' = Ok (t', out) /\ length out = 7%nat.
Proof.
  do 3 eexists. split; [vm_compute; reflexivity |].
  match goal with |- Print ?t = Ok (?t', ?out) /\ _ =>
    assert (HP : Print t = Ok (t', out)) by (vm_compute; reflexivity)
  end.
  split; [exact HP |]. split; [exact (Print_twice _ _ _ HP) | reflexivity].
Defined.

(** ** The stored format is never observed stale *)

Lemma table_lines_with_alteredState b t :
  table_lines (with_alteredState b t) = table_lines t.
Proof. reflexivity. Qed.

(** On a reachable table [Print] gives what a full rebuild gives. *)
Lemma Print_reachable_rebuilds t :
  reachable t -> incomplete t = false ->
  Print t = let* t' := buildFormat t in Ok (mark_printed t', table_lines t').
Proof.
  intros Hreach Hinc. rewrite Print_complete by exact Hinc.
  destruct (alteredState t) eqn:Halt; [reflexivity |].
  destruct (reachable_format_valid t Hreach Halt) as [Hi | Hb]; [congruence |].
  now rewrite Hb.
Qed.





(** ** Invariants of the stored data *)

Lemma call_rows_locked c t t' out :
  rows_locked t -> call c t = Ok (t', out) -> rows_locked t'.
Proof.
  unfold rows_locked. intros Hlock Hcall. destruct c; simpl in Hcall.
  - inversion Hcall; subst. exact Hlock.
  - unfold AddColumn in Hcall. destruct (startedAddingRows t) eqn:Hst;
      inversion Hcall; subst; simpl; auto.
  - unfold AddRow in Hcall. destruct (negb _); inversion Hcall; subst; simpl; auto.
  - rewrite AddRows_eq in Hcall. inversion Hcall; subst. simpl. auto.
  - destruct (Print_keeps_same_data t t' out Hcall) as (_ & _ & Hr & Hs).
    rewrite <- Hr, <- Hs. exact Hlock.
  - inversion Hcall; subst. simpl. rewrite resize_0. congruence.
Qed.

Lemma run_rows_locked cs : forall t t' out,
  rows_locked t -> run cs t = Ok (t', out) -> rows_locked t'.
Proof.
  induction cs as [|c cs IH]; intros t t' out Hlock Hrun; simpl in Hrun.
  - inversion Hrun; subst. exact Hlock.
  - apply bind_Ok_inv in Hrun as ([t1 o1] & Hcall & Hrun).
    apply bind_Ok_inv in Hrun as ([t2 o2] & Hrest & Hrun).
    inversion Hrun; subst. simpl in *.
    eapply IH; [| exact Hrest]. eapply call_rows_locked; eauto.
Qed.

(** Once a reachable table holds a row, [AddColumn] is refused: it
    reports and returns the table as it is. *)
Theorem AddColumn_refused_once_rows_stored (t : PrintTable) (name : string) :
  reachable t -> rows t <> [] ->
  AddColumn name t = (t, [ColumnsLocked (title t)]).
Proof.
  intros (cs & out & Hrun) Hrows.
  assert (Hlock : rows_locked t).
  { eapply run_rows_locked; [| exact Hrun]. intros H. now destruct H. }
  unfold AddColumn. now rewrite (Hlock Hrows).
Qed.

Lemma AddColumn_refused_once_rows_stored_witness :
  exists t out,
    run main_calls new_table = Ok (t, out)
    /\ AddColumn "Price" t = (t, [ColumnsLocked "My Friends' Gaming GPUs"]).
Proof.
  destruct (run main_calls new_table) as [[t out]|e] eqn:Hrun;
    [| vm_compute in Hrun; discriminate].
  exists t, out. split; [reflexivity |].
  assert (Hreach : reachable t) by (exists main_calls, out; exact Hrun).
  vm_compute in Hrun. inversion Hrun; subst t.
  apply (AddColumn_refused_once_rows_stored _ "Price" Hreach). discriminate.
Defined.

Lemma call_rows_match c t t' out :
  (forall rs, c <> CallAddRows rs) ->
  rows_match t /\ rows_locked t -> call c t = Ok (t', out) ->
  rows_match t' /\ rows_locked t'.
Proof.
  intros Hc [Hmatch Hlock] Hcall.
  split; [| eapply call_rows_locked; eauto].
  unfold rows_match in *. destruct c; simpl in Hcall.
  - inversion Hcall; subst. exact Hmatch.
  - unfold AddColumn in Hcall. destruct (startedAddingRows t) eqn:Hst;
      inversion Hcall; subst; simpl; [exact Hmatch |].
    destruct (rows t) as [|row rws] eqn:Hrows; [constructor |].
    unfold rows_locked in Hlock. rewrite Hrows in Hlock.
    rewrite Hlock in Hst by discriminate. discriminate.
  - unfold AddRow in Hcall.
    destruct (Nat.eqb_spec (length row) (length (columnNames t))) as [Heq | Hne];
      inversion Hcall; subst; simpl; [| exact Hmatch].
    apply Forall_app. split; [exact Hmatch | repeat constructor; exact Heq].
  - now destruct (Hc newRows).
  - destruct (Print_keeps_same_data t t' out Hcall) as (_ & Hn & Hr & _).
    now rewrite <- Hn, <- Hr.
  - inversion Hcall; subst. simpl. rewrite !resize_0. constructor.
Qed.

Lemma no_AddRows_cons c cs :
  no_AddRows (c :: cs) = true ->
  (forall rs, c <> CallAddRows rs) /\ no_AddRows cs = true.
Proof.
  unfold no_AddRows. simpl. intros H. apply andb_true_iff in H as [Hc Hcs].
  split; [| exact Hcs]. intros rs ->. discriminate.
Qed.

Lemma run_rows_match cs : forall t t' out,
  no_AddRows cs = true ->
  rows_match t /\ rows_locked t -> run cs t = Ok (t', out) ->
  rows_match t' /\ rows_locked t'.
Proof.
  induction cs as [|c cs IH]; intros t t' out Hno Hinv Hrun; simpl in Hrun.
  - inversion Hrun; subst. exact Hinv.
  - apply no_AddRows_cons in Hno as [Hc Hno].
    apply bind_Ok_inv in Hrun as ([t1 o1] & Hcall & Hrun).
    apply bind_Ok_inv in Hrun as ([t2 o2] & Hrest & Hrun).
    inversion Hrun; subst. simpl in *.
    eapply IH; [exact Hno | | exact Hrest]. eapply call_rows_match; eauto.
Qed.

Lemma new_table_rows_match : rows_match new_table /\ rows_locked new_table.
Proof. split; [constructor | intros H; now destruct H]. Qed.

(** In a program that adds its rows with [AddRow] only, every stored row
    has exactly as many cells as there are columns, whatever the order of
    the calls and however many are refused. *)
Theorem AddRow_only_rows_match (cs : list Call) (t : PrintTable) (out : list Event) :
  no_AddRows cs = true -> run cs new_table = Ok (t, out) -> rows_match t.
Proof.
  intros Hno Hrun.
  exact (proj1 (run_rows_match cs _ _ _ Hno new_table_rows_match Hrun)).
Qed.

(** A short row and a column that comes too late are both refused. *)
Lemma AddRow_only_rows_match_witness :
  exists t out,
    run [CallAddColumn "A"; CallAddRow ["x"; "y"]; CallAddColumn "B";
         CallAddRow ["x"; "y"]; CallAddRow ["z"; "w"]; CallAddColumn "C";
         CallAddRow ["u"]]%string new_table = Ok (t, out)
    /\ length (rows t) = 2%nat
    /\ rows_match t.
Proof.
  match goal with |- exists t out, run ?cs _ = _ /\ _ =>
    destruct (run cs new_table) as [[t out]|e] eqn:Hrun;
      [| vm_compute in Hrun; discriminate];
    exists t, out; split; [reflexivity |];
    pose proof (AddRow_only_rows_match cs t out eq_refl Hrun) as Hmatch
  end.
  split; [| exact Hmatch].
  vm_compute in Hrun. inversion Hrun. reflexivity.
Defined.

Lemma Print_no_oob t : rows_match t -> Print t <> Err OutOfBounds.
Proof.
  intros Hmatch H. unfold Print in H.
  destruct (_ || _); [discriminate |].
  destruct (alteredState t); [| discriminate].
  pose proof (buildFormat_safe t Hmatch) as Hsafe.
  destruct (buildFormat t) as [t'|e]; [discriminate |].
  simpl in H, Hsafe. inversion H; subst e. now apply Hsafe.
Qed.

Lemma run_no_oob cs : forall t,
  no_AddRows cs = true -> rows_match t /\ rows_locked t ->
  run cs t <> Err OutOfBounds.
Proof.
  induction cs as [|c cs IH]; intros t Hno Hinv; simpl; [discriminate |].
  apply no_AddRows_cons in Hno as [Hc Hno].
  destruct (call c t) as [[t1 o1]|e] eqn:Hcall; cbn [bind fst snd].
  - pose proof (call_rows_match c t t1 o1 Hc Hinv Hcall) as Hinv1.
    specialize (IH t1 Hno Hinv1).
    destruct (run cs t1) as [[t2 o2]|e]; cbn [bind]; [discriminate |].
    intros H. inversion H; subst e. now apply IH.
  - intros H. inversion H; subst e.
    destruct c; simpl in Hcall; try discriminate.
    now apply (Print_no_oob t (proj1 Hinv)).
Qed.

(** A program that adds its rows with [AddRow] only never indexes a
    vector out of bounds, whatever its calls. *)
Theorem AddRow_only_never_out_of_bounds (cs : list Call) :
  no_AddRows cs = true -> run cs new_table <> Err OutOfBounds.
Proof. intros Hno. now apply run_no_oob; [| apply new_table_rows_match]. Qed.

Lemma AddRow_only_never_out_of_bounds_witness :
  run [CallSetTitle "T"; CallAddColumn "A"; CallAddRow ["x"; "y"];
       CallAddColumn "BB"; CallAddRow ["x"; "y"]; CallPrint;
       CallAddRow ["z"]; CallPrint]%string new_table <> Err OutOfBounds.
Proof. apply AddRow_only_never_out_of_bounds. reflexivity. Defined.

(** ** Stored rows and columns only grow *)

Lemma no_Reset_cons c cs :
  no_Reset (c :: cs) = true -> c <> CallReset /\ no_Reset cs = true.
Proof.
  unfold no_Reset. simpl. intros H. apply andb_true_iff in H as [Hc Hcs].
  split; [| exact Hcs]. intros ->. discriminate.
Qed.

Lemma call_grows c t t' out :
  c <> CallReset -> call c t = Ok (t', out) ->
  columnNames t `prefix_of` columnNames t' /\ rows t `prefix_of` rows t'.
Proof.
  intros Hc Hcall. destruct c; simpl in Hcall; try congruence.
  - inversion Hcall; subst. simpl. split; reflexivity.
  - unfold AddColumn in Hcall. destruct (startedAddingRows t);
      inversion Hcall; subst; simpl; split; try reflexivity.
    now apply prefix_app_r.
  - unfold AddRow in Hcall. destruct (negb _);
      inversion Hcall; subst; simpl; split; try reflexivity.
    now apply prefix_app_r.
  - rewrite AddRows_eq in Hcall. inversion Hcall; subst. simpl.
    split; [reflexivity | now apply prefix_app_r].
  - destruct (Print_keeps_same_data t t' out Hcall) as (_ & Hn & Hr & _).
    rewrite <- Hn, <- Hr. split; reflexivity.
Qed.

(** Short of [Reset], no call removes, replaces or reorders a stored
    column name or a stored row: the old sequences are prefixes of the new
    ones. *)
Theorem stored_data_only_grows (cs : list Call) : forall t t' out,
  no_Reset cs = true -> run cs t = Ok (t', out) ->
  columnNames t `prefix_of` columnNames t' /\ rows t `prefix_of` rows t'.
Proof.
  induction cs as [|c cs IH]; intros t t' out Hno Hrun; simpl in Hrun.
  - inversion Hrun; subst. split; reflexivity.
  - apply no_Reset_cons in Hno as [Hc Hno].
    apply bind_Ok_inv in Hrun as ([t1 o1] & Hcall & Hrun).
    apply bind_Ok_inv in Hrun as ([t2 o2] & Hrest & Hrun).
    inversion Hrun; subst. simpl in *.
    destruct (call_grows c t t1 o1 Hc Hcall) as [Hn1 Hr1].
    destruct (IH _ _ _ Hno Hrest) as [Hn2 Hr2].
    split; etrans; eassumption.
Qed.

Lemma stored_data_only_grows_witness :
  exists t t' out,
    run (removelast main_calls) new_table = Ok (t, [])
    /\ run [CallAddColumn "Price"; CallAddRow ["AMD"; "RX 580"; "2017"];
            CallPrint; CallSetTitle "GPUs"]%string t = Ok (t', out)
    /\ columnNames t `prefix_of` columnNames t' /\ rows t `prefix_of` rows t'.
Proof.
  let T := eval vm_compute in
    (match run (removelast main_calls) new_table with
     | Ok (t0, _) => t0
     | Err _ => new_table
     end) in
  exists T.
  match goal with |- exists t' out, _ /\ run ?cs ?t = _ /\ _ =>
    destruct (run cs t) as [[t' out]|e] eqn:Hrun;
      [| vm_compute in Hrun; discriminate]
  end.
  exists t', out. split; [vm_compute; reflexivity |]. split; [reflexivity |].
  refine (stored_data_only_grows _ _ _ _ _ Hrun). reflexivity.
Defined.

(** ** Adding rows in bulk and one by one *)

(** Two calls of [AddRows] in a row store the rows, and report the
    mismatched ones, exactly as one call on the concatenated list does. *)
Theorem AddRows_app (rs1 rs2 : list (list string)) (t : PrintTable) :
  fst (AddRows rs2 (fst (AddRows rs1 t))) = fst (AddRows (rs1 ++ rs2) t)
  /\ snd (AddRows rs1 t) ++ snd (AddRows rs2 (fst (AddRows rs1 t)))
     = snd (AddRows (rs1 ++ rs2) t).
Proof.
  rewrite !AddRows_eq. simpl. split.
  - now rewrite app_assoc.
  - now rewrite filter_app, map_app.
Qed.

Lemma AddRows_matching_silent (rs : list (list string)) (t : PrintTable) :
  Forall (fun row => length row = length (columnNames t)) rs ->
  snd (AddRows rs t) = [].
Proof.
  intros Hall. rewrite AddRows_eq. simpl.
  induction Hall as [|row rs Hrow _ IH]; [reflexivity |].
  rewrite filter_cons. rewrite decide_False by (intros H; apply H; exact Hrow).
  exact IH.
Qed.

(** On a non-empty list of rows that all have as many cells as there are
    columns, [AddRows] is silent and leaves the table that adding the rows
    one by one with [AddRow] leaves. *)
Theorem AddRows_matching_is_AddRow_each (rs : list (list string)) : forall t,
  rs <> [] ->
  Forall (fun row => length row = length (columnNames t)) rs ->
  AddRows rs t = (add_each rs t, []).
Proof.
  induction rs as [|row rs IH]; intros t Hne Hall; [congruence |].
  rewrite (surjective_pairing (AddRows (row :: rs) t)).
  rewrite AddRows_matching_silent by exact Hall. f_equal.
  inversion Hall as [|? ? Hrow Hrest]; subst.
  unfold add_each. simpl. fold (add_each rs (fst (AddRow row t))).
  assert (Hadd : fst (AddRow row t) = mark_rows_added (push_row row t)).
  { unfold AddRow. rewrite Hrow, Nat.eqb_refl. reflexivity. }
  rewrite Hadd. destruct rs as [|row' rs'].
  - rewrite AddRows_eq. reflexivity.
  - specialize (IH (mark_rows_added (push_row row t)) ltac:(discriminate) Hrest).
    apply (f_equal fst) in IH. cbn [fst] in IH. rewrite <- IH.
    rewrite !AddRows_eq. simpl. now rewrite <- app_assoc.
Qed.

Lemma AddRows_matching_is_AddRow_each_witness :
  let t := fst (AddColumn "BB" (fst (AddColumn "A" new_table))) in
  AddRows [["x"; "y"]; ["z"; "w"]]%string t
  = (fst (AddRow ["z"; "w"]%string (fst (AddRow ["x"; "y"]%string t))), []).
Proof.
  intros t.
  apply (AddRows_matching_is_AddRow_each [["x"; "y"]; ["z"; "w"]]%string t).
  - discriminate.
  - repeat constructor.
Defined.

(** ** A title at the edge of the table *)



Lemma incomplete_false_inv t :
  incomplete t = false ->
  title t <> ""%string /\ columnNames t <> [] /\ rows t <> [].
Proof.
  unfold incomplete. intros H.
  destruct (title t); [discriminate |]. destruct (columnNames t); [discriminate |].
  destruct (rows t); [discriminate |]. repeat split; discriminate.
Qed.

(** The title whose difference to the content width is -1: both pad
    counts round to zero. *)
Lemma makeTitleStr_one_over (W : nat) ttl :
  (String.length ttl + 3 = W)%nat -> Z.of_nat W <= Int.INT_MAX ->
  makeTitleStr (Z.of_nat W) ttl = Ok (title_line W ttl).
Proof.
  intros HL HW. unfold makeTitleStr, Int.sub.
  rewrite to_int_id by int_lia. rewrite lengthDiff_of_wrap.
  replace (Z.of_nat W - 4 - string_length ttl) with (-1)
    by (unfold string_length; lia).
  unfold title_line, centered, leftPad, rightPad.
  replace (W - 4 - String.length ttl)%nat with 0%nat by lia.
  cbn [Nat.div Nat.divmod fst Nat.sub fill].
  rewrite append_nil_l, append_nil_r.
  unfold padded. vm_compute (numPreSpace _). vm_compute (numPostSpace _).
  vm_compute (make_string 0 " "). cbn [bind].
  now rewrite append_nil_l, append_nil_r.
Qed.


(** With rows that match and a table width that is an [int], the title
    line alone decides how building the format ends. *)
Lemma buildFormat_title t :
  rows_match t -> Z.of_nat (table_width t) <= Int.INT_MAX ->
  buildFormat t =
    let ws := column_widths (columnNames t) (rows t) in
    let* ttl := makeTitleStr (Z.of_nat (table_width t)) (title t) in
    Ok {| title := title t; columnNames := columnNames t; rows := rows t;
          startedAddingRows := startedAddingRows t; alteredState := alteredState t;
          maxColumnWidths := map Z.of_nat ws;
          fullDividerStr := divider_line (total_width ws);
          titleStr := ttl;
          columnStr := table_line ws (columnNames t);
          rowStrs := map (table_line ws) (rows t) |}.
Proof.
  intros Hmatch Hfit. unfold buildFormat.
  rewrite computeWidths_exact.
  2: { now apply rows_match_cover. }
  2: { intros i Hi. pose proof (table_width_fits t i Hfit Hi). lia. }
  cbn [bind]. fold (table_width t).
  rewrite computeTableWidth_exact by exact Hfit. fold (table_width t).
  rewrite make_string_nonneg by lia. cbn [bind]. rewrite Nat2Z.id.
  cbv zeta.
  destruct (makeTitleStr (Z.of_nat (table_width t)) (title t)) as [ttl|e];
    cbn [bind]; [| reflexivity].
  rewrite makeColumnStr_exact.
  2: { apply length_column_widths. }
  2: { intros i w x Hw Hx.
       assert (Hi : (i < length (columnNames t))%nat) by (eapply lookup_lt_Some; eauto).
       rewrite lookup_column_widths in Hw by exact Hi. inversion Hw; subst w.
       split; [| now apply table_width_fits].
       rewrite <- (cell_length_lookup _ _ _ Hx). apply name_le_column_width. }
  cbn [bind].
  rewrite makeRowStrs_exact; [reflexivity |].
  intros r row e x Hrow Hx.
  pose proof (Forall_lookup_1 (fun row => length row = length (columnNames t))
                (rows t) r row Hmatch Hrow) as Hrowlen. simpl in Hrowlen.
  assert (He : (e < length (columnNames t))%nat)
    by (rewrite <- Hrowlen; eapply lookup_lt_Some; eauto).
  exists (column_width (columnNames t) (rows t) e).
  split; [now apply lookup_column_widths | split; [| now apply table_width_fits]].
  rewrite <- (cell_length_lookup _ _ _ Hx).
  eapply cell_le_column_width; eauto.
Qed.

(** All the lines but the title line are as long as the table is wide,
    whatever the title. *)
Lemma layout_lines_width_but_title t :
  rows_match t ->
  exists rest,
    layout_lines t
      = divider_line (table_width t) :: title_line (table_width t) (title t) :: rest
    /\ String.length (divider_line (table_width t)) = table_width t
    /\ Forall (fun l => String.length l = table_width t) rest.
Proof.
  intros Hmatch. unfold layout_lines. fold (table_width t). cbv zeta.
  eexists. split; [reflexivity |]. split; [apply length_divider_line |].
  assert (Hnames : String.length (table_line (column_widths (columnNames t) (rows t))
                                    (columnNames t)) = table_width t).
  { apply length_table_line; [now rewrite length_column_widths |].
    intros i w x Hw Hx.
    rewrite lookup_column_widths in Hw by (eapply lookup_lt_Some; eauto).
    inversion Hw; subst w.
    rewrite <- (cell_length_lookup _ _ _ Hx). apply name_le_column_width. }
  repeat (apply Forall_cons; split;
          [first [apply length_divider_line | exact Hnames] |]).
  apply Forall_app. split.
  - apply Forall_lookup. intros r l Hl. rewrite list_lookup_fmap in Hl.
    destruct (rows t !! r) as [row|] eqn:Hrow; [| discriminate].
    simpl in Hl. inversion Hl; subst l.
    pose proof (Forall_lookup_1 (fun row => length row = length (columnNames t))
                  (rows t) r row Hmatch Hrow) as Hrowlen. simpl in Hrowlen.
    apply length_table_line; [now rewrite length_column_widths |].
    intros i w x Hw Hx.
    rewrite lookup_column_widths in Hw
      by (rewrite <- Hrowlen; eapply lookup_lt_Some; eauto).
    inversion Hw; subst w.
    rewrite <- (cell_length_lookup _ _ _ Hx). eapply cell_le_column_width; eauto.
  - apply Forall_cons. split; [apply length_divider_line | constructor].
Qed.

(** A title exactly one character longer than the content width does not
    stop [Print]: on a table of plain texts the table is written with the
    title unpadded, its line one character longer than the table is wide,
    every other line of standard output as long as the table is wide. *)
Theorem Print_title_one_over (t : PrintTable) :
  reachable t -> incomplete t = false -> rows_match t ->
  plain_table t = true ->
  Z.of_nat (table_width t) <= Int.INT_MAX ->
  (String.length (title t) + 3 = table_width t)%nat ->
  exists t' out rest,
    Print t = Ok (t', out)
    /\ stdout_lines out
       = divider_line (table_width t) :: ("| " +:+ title t +:+ " |") :: rest
    /\ String.length ("| " +:+ title t +:+ " |") = S (table_width t)
    /\ String.length (divider_line (table_width t)) = table_width t
    /\ Forall (fun l => String.length l = table_width t) rest.
Proof.
  intros Hreach Hinc Hmatch Hplain Hfit Hone.
  destruct (layout_lines_width_but_title t Hmatch) as (rest & Hlines & Hdiv & Hrest).
  assert (Htl : title_line (table_width t) (title t) = "| " +:+ title t +:+ " |").
  { unfold title_line, centered, leftPad, rightPad.
    replace (table_width t - 4 - String.length (title t))%nat with 0%nat by lia.
    cbn [Nat.div Nat.divmod fst Nat.sub fill].
    now rewrite append_nil_l, append_nil_r. }
  rewrite Print_reachable_rebuilds by assumption.
  rewrite buildFormat_title by assumption. cbv zeta.
  rewrite makeTitleStr_one_over by assumption. cbn [bind].
  exists (mark_printed (formatted t)), (map Line (layout_lines t)), rest.
  split; [| split; [| split; [| split; [exact Hdiv | exact Hrest]]]].
  - change (Ok (mark_printed (formatted t), table_lines (formatted t))
            = Ok (mark_printed (formatted t), map Line (layout_lines t))).
    now rewrite table_lines_formatted.
  - rewrite stdout_lines_layout by exact Hplain. now rewrite Hlines, Htl.
  - rewrite !length_append. simpl. lia.
Qed.

(** The wide-title table: a title line of nine characters in a table
    eight wide. *)
Lemma Print_title_one_over_witness :
  exists t t' out rest,
    run wide_title_calls new_table = Ok (t, [])
    /\ Print t = Ok (t', out)
    /\ stdout_lines out = ("--------" :: "| Hello |" :: rest)%string
    /\ Forall (fun l => String.length l = 8%nat) rest.
Proof.
  let T := eval vm_compute in
    (match run wide_title_calls new_table with
     | Ok (t0, _) => t0
     | Err _ => new_table
     end) in
  exists T;
  assert (Hreach : reachable T) by (exists wide_title_calls, []; vm_compute; reflexivity);
  assert (Hmatch : rows_match T) by (repeat constructor);
  assert (Hplain : plain_table T = true) by (vm_compute; reflexivity);
  assert (Hfit : Z.of_nat (table_width T) <= Int.INT_MAX) by (vm_compute; discriminate);
  destruct (Print_title_one_over T Hreach eq_refl Hmatch Hplain Hfit eq_refl)
    as (t' & out & rest & HP & Hout & _ & _ & Hrest).
  exists t', out, rest. split; [vm_compute; reflexivity |].
  split; [exact HP | split; [exact Hout | exact Hrest]].
Defined.



(** ** The documented limit on the title *)

Lemma sum_names_le_widths (f : nat -> nat) (names : list string) : forall k,
  (forall i name, names !! i = Some name -> (String.length name <= f (k + i))%nat) ->
  (sum_list_with String.length names + 3 * length names
   <= sum_list_with (fun w => w + 3) (map f (seq k (length names))))%nat.
Proof.
  induction names as [|name names IH]; intros k Hle; simpl; [lia |].
  pose proof (Hle 0%nat name eq_refl) as H0. rewrite Nat.add_0_r in H0.
  assert (IH' := IH (S k)).
  assert (Hrest : forall i name', names !! i = Some name' ->
                    (String.length name' <= f (S k + i))%nat).
  { intros i name' Hi. specialize (Hle (S i) name' Hi).
    now replace (S k + i)%nat with (k + S i)%nat by lia. }
  specialize (IH' Hrest). lia.
Qed.

(** A title no longer than the column names taken together fits the
    content width. *)
Lemma title_within_names_fits t :
  columnNames t <> [] ->
  (String.length (title t) <= sum_list_with String.length (columnNames t))%nat ->
  (String.length (title t) + 4 <= table_width t)%nat.
Proof.
  intros Hcols Hle. unfold table_width, total_width, column_widths.
  pose proof (sum_names_le_widths (column_width (columnNames t) (rows t))
                (columnNames t) 0) as Hsum.
  assert (Hn : (1 <= length (columnNames t))%nat)
    by (destruct (columnNames t); [congruence | simpl; lia]).
  assert (Hnames : forall i name, columnNames t !! i = Some name ->
            (String.length name <= column_width (columnNames t) (rows t) (0 + i))%nat).
  { intros i name Hi. simpl. rewrite <- (cell_length_lookup _ _ _ Hi).
    apply name_le_column_width. }
  specialize (Hsum Hnames). lia.
Qed.

(** Limitation 2 of the header comment is enough: on a reachable table
    of plain texts whose rows match, whose width is an [int] and whose
    title is no longer than all of the column names combined, [Print]
    writes the table, every line of standard output as long as the table
    is wide. *)
Theorem Print_ok_when_title_within_column_names (t : PrintTable) :
  reachable t -> incomplete t = false -> rows_match t ->
  plain_table t = true ->
  Z.of_nat (table_width t) <= Int.INT_MAX ->
  (String.length (title t) <= sum_list_with String.length (columnNames t))%nat ->
  exists t' out,
    Print t = Ok (t', out)
    /\ stdout_lines out = layout_lines t
    /\ length (stdout_lines out) = (6 + length (rows t))%nat
    /\ Forall (fun l => String.length l = table_width t) (stdout_lines out).
Proof.
  intros Hreach Hinc Hmatch Hplain Hfit Htitle.
  destruct (incomplete_false_inv t Hinc) as (_ & Hcols & _).
  pose proof (title_within_names_fits t Hcols Htitle) as Hfits.
  rewrite Print_reachable_rebuilds by assumption.
  rewrite buildFormat_exact by assumption. cbn [bind].
  rewrite table_lines_formatted.
  eexists _, _. split; [reflexivity |].
  rewrite stdout_lines_layout by exact Hplain.
  split; [reflexivity |]. split; [apply length_layout_lines |].
  now apply layout_lines_width.
Qed.

(** main.cpp: a title of 23 characters over column names of 26. *)
Lemma Print_ok_when_title_within_column_names_witness :
  exists t t' out,
    run (removelast main_calls) new_table = Ok (t, [])
    /\ Print t = Ok (t', out)
    /\ Forall (fun l => String.length l = 38%nat) (stdout_lines out).
Proof.
  let T := eval vm_compute in
    (match run (removelast main_calls) new_table with
     | Ok (t0, _) => t0
     | Err _ => new_table
     end) in
  exists T;
  assert (Hreach : reachable T)
    by (exists (removelast main_calls), []; vm_compute; reflexivity);
  assert (Hmatch : rows_match T) by (repeat constructor);
  assert (Hplain : plain_table T = true) by (vm_compute; reflexivity);
  assert (Hfit : Z.of_nat (table_width T) <= Int.INT_MAX) by (vm_compute; discriminate);
  assert (Htitle : (String.length (title T)
                    <= sum_list_with String.length (columnNames T))%nat)
    by (vm_compute; lia);
  destruct (Print_ok_when_title_within_column_names T Hreach eq_refl Hmatch Hplain
              Hfit Htitle)
    as (t' & out & HP & _ & _ & Hall).
  exists t', out. split; [vm_compute; reflexivity |].
  split; [exact HP | exact Hall].
Defined.

(** ** When the width scan leaves a row *)

Lemma for_loop_app {St} (body : nat -> St -> result St) n m : forall i s,
  for_loop body i (n + m) s
  = let* s' := for_loop body i n s in for_loop body (i + n)%nat m s'.
Proof.
  induction n as [|n IH]; intros i s; simpl.
  - now rewrite Nat.add_0_r.
  - destruct (body i s) as [s'|e]; cbn [bind]; [| reflexivity].
    rewrite IH. now replace (S i + n)%nat with (i + S n)%nat by lia.
Qed.

(** The scan of one row, started at column [c0], on cells that exist. *)
Lemma scan_row_cells (rws : list (list string)) r row n ws : forall c0,
  rws !! r = Some row -> (c0 + n <= length row)%nat ->
  (c0 + n <= length ws)%nat ->
  wp no_error
    (for_loop (fun c widths =>
        let* row := at_ rws r in
        let* cell := at_ row c in
        let* w := at_ widths c in
        if Int.to_int (string_length cell) >? w
        then set_at widths c (Int.to_int (string_length cell))
        else Ok widths) c0 n ws)
    (fun ws' => length ws' = length ws).
Proof.
  intros c0 Hrow Hcells Hws.
  eapply wp_mono.
  - apply (wp_for_loop no_error (fun _ ws' => length ws' = length ws));
      [reflexivity |].
    intros c ws' Hc Hlen'.
    apply wp_bind. apply wp_at; [eapply lookup_lt_Some; eauto |]. intros row' Hrow'.
    rewrite Hrow in Hrow'. inversion Hrow'; subst row'.
    apply wp_bind. apply wp_at; [lia |]. intros cell _.
    apply wp_bind. apply wp_at; [lia |]. intros w _.
    destruct (_ >? _); [| exact Hlen'].
    apply wp_set_at; [lia |]. now rewrite length_insert.
  - auto.
Qed.

(** The scan of a row with fewer cells than there are columns. *)
Lemma scan_short_row (rws : list (list string)) r row n ws :
  rws !! r = Some row -> (length row < n)%nat -> length ws = n ->
  for_loop (fun c widths =>
      let* row := at_ rws r in
      let* cell := at_ row c in
      let* w := at_ widths c in
      if Int.to_int (string_length cell) >? w
      then set_at widths c (Int.to_int (string_length cell))
      else Ok widths) 0 n ws
  = Err OutOfBounds.
Proof.
  intros Hrow Hshort Hws.
  replace n with (length row + S (n - length row - 1))%nat at 1 by lia.
  rewrite for_loop_app.
  destruct (wp_Ok no_error _ _
              (scan_row_cells rws r row (length row) ws 0%nat Hrow ltac:(lia) ltac:(lia)))
    as (ws' & -> & _); [intros e He; exact He |].
  cbn [bind for_loop]. unfold at_ at 1. rewrite Hrow. cbn [bind].
  unfold at_ at 1. now rewrite lookup_ge_None_2 by lia.
Qed.

(** With rows that cover the columns the scan ends in no error at all. *)
Lemma computeWidths_rows_no_error (names : list string) (rws : list (list string)) :
  rows_cover names rws ->
  wp no_error
    (for_loop (fun r widths =>
        for_loop (fun c widths =>
            let* row := at_ rws r in
            let* cell := at_ row c in
            let* w := at_ widths c in
            if Int.to_int (string_length cell) >? w
            then set_at widths c (Int.to_int (string_length cell))
            else Ok widths)
          0 (length names) widths)
      0 (length rws)
      (map (fun name => Int.to_int (string_length name)) names))
    (fun ws => length ws = length names).
Proof.
  intros Hcover. eapply wp_mono.
  - apply (wp_for_loop no_error (fun _ ws => length ws = length names));
      [apply length_map |].
    intros r ws Hr Hlen.
    destruct (lookup_lt_is_Some_2 rws r ltac:(lia)) as [row Hrow].
    pose proof (Forall_lookup_1 (fun row => (length names <= length row)%nat)
                  rws r row Hcover Hrow) as Hrowlen. simpl in Hrowlen.
    eapply wp_mono.
    + apply (scan_row_cells rws r row (length names) ws 0%nat Hrow); lia.
    + intros ws' Hws'. cbv beta in Hws'. congruence.
  - auto.
Qed.

Lemma scan_rows_short (names : list string) (rws : list (list string)) m :
  forall r ws,
    (r + m = length rws)%nat -> length ws = length names ->
    (exists j row, (r <= j)%nat /\ rws !! j = Some row
                   /\ (length row < length names)%nat) ->
    for_loop (fun r widths =>
        for_loop (fun c widths =>
            let* row := at_ rws r in
            let* cell := at_ row c in
            let* w := at_ widths c in
            if Int.to_int (string_length cell) >? w
            then set_at widths c (Int.to_int (string_length cell))
            else Ok widths)
          0 (length names) widths)
      r m ws
    = Err OutOfBounds.
Proof.
  induction m as [|m IH]; intros r ws Hm Hws (j & row & Hj & Hrow & Hshort).
  - apply lookup_lt_Some in Hrow. lia.
  - cbn [for_loop].
    destruct (lookup_lt_is_Some_2 rws r ltac:(lia)) as [row_r Hrow_r].
    destruct (decide (length row_r < length names)%nat) as [Hr | Hr].
    + now rewrite (scan_short_row rws r row_r (length names) ws Hrow_r Hr Hws).
    + destruct (wp_Ok no_error _ _
                  (scan_row_cells rws r row_r (length names) ws 0%nat Hrow_r
                     ltac:(lia) ltac:(lia)))
        as (ws' & -> & Hws'); [intros e He; exact He |].
      cbn [bind]. apply IH; [lia | congruence |].
      exists j, row. split; [| split; assumption].
      destruct (decide (j = r)) as [-> | Hne]; [| lia].
      rewrite Hrow_r in Hrow. inversion Hrow; subst. lia.
Qed.

Lemma computeWidths_short_row (names : list string) (rws : list (list string)) w0 :
  Exists (fun row => (length row < length names)%nat) rws ->
  computeWidths names rws w0 = Err OutOfBounds.
Proof.
  intros Hex. rewrite computeWidths_unfold.
  apply scan_rows_short; [lia | apply length_map |].
  apply Exists_exists in Hex as (row & Hin & Hlt).
  apply list_elem_of_lookup in Hin as [j Hj].
  exists j, row. split; [lia | split; assumption].
Qed.

Lemma no_short_row_cover (names : list string) (rws : list (list string)) :
  ~ Exists (fun row => (length row < length names)%nat) rws ->
  rows_cover names rws.
Proof.
  intros Hno. unfold rows_cover. apply Forall_forall. intros row Hin.
  destruct (decide (length names <= length row)%nat) as [Hle | Hgt]; [exact Hle |].
  exfalso. apply Hno. apply Exists_exists. exists row. split; [exact Hin | lia].
Qed.

(** The width scan leaves the bounds of a row exactly when some stored
    row has fewer cells than there are columns; it ends in no other error.
    A complete, altered table with such a row makes [Print] index out of
    bounds. *)
Theorem computeWidths_out_of_bounds_iff (names : list string)
    (rws : list (list string)) (widths0 : list Z) :
  (computeWidths names rws widths0 = Err OutOfBounds
   <-> Exists (fun row => (length row < length names)%nat) rws)
  /\ computeWidths names rws widths0 <> Err LengthError
  /\ (forall t, columnNames t = names -> rows t = rws ->
        incomplete t = false -> alteredState t = true ->
        Exists (fun row => (length row < length names)%nat) rws ->
        Print t = Err OutOfBounds).
Proof.
  pose proof (computeWidths_short_row names rws) as Hshort.
  pose proof (no_short_row_cover names rws) as Hcover.
  split; [split | split].
  - intros Hoob.
    destruct (decide (Exists (fun row => (length row < length names)%nat) rws))
      as [Hex | Hno]; [exact Hex |].
    pose proof (computeWidths_safe names rws widths0 (Hcover Hno)) as Hsafe.
    rewrite Hoob in Hsafe. now destruct Hsafe.
  - intros Hex. now apply Hshort.
  - intros Hle.
    destruct (decide (Exists (fun row => (length row < length names)%nat) rws))
      as [Hex | Hno].
    + rewrite (Hshort widths0 Hex) in Hle. discriminate.
    + rewrite computeWidths_unfold in Hle.
      pose proof (computeWidths_rows_no_error names rws (Hcover Hno)) as Hok.
      rewrite Hle in Hok. exact Hok.
  - intros t <- <- Hinc Halt Hex.
    rewrite Print_complete by exact Hinc. rewrite Halt.
    unfold buildFormat. now rewrite (Hshort _ Hex).
Qed.

Lemma computeWidths_out_of_bounds_iff_witness :
  computeWidths ["A"; "BB"]%string [["x"; "y"]; ["z"]]%string [] = Err OutOfBounds
  /\ Print short_row_table = Err OutOfBounds.
Proof.
  pose proof (computeWidths_out_of_bounds_iff
                ["A"; "BB"]%string [["x"; "y"]; ["z"]]%string []) as [Hiff _].
  pose proof (computeWidths_out_of_bounds_iff
                (columnNames short_row_table) (rows short_row_table) [])
    as (_ & _ & HP).
  split.
  - apply Hiff. apply Exists_cons_tl, Exists_cons_hd. simpl. lia.
  - apply (HP short_row_table); try reflexivity.
    apply Exists_cons_hd. simpl. lia.
Defined.

(** ** A mismatched row stops [Print] *)

Lemma for_loop_Ok_step {St} (body : nat -> St -> result St) n : forall i s s',
  for_loop body i n s = Ok s' ->
  forall k, (i <= k < i + n)%nat -> exists sk sk', body k sk = Ok sk'.
Proof.
  induction n as [|n IH]; intros i s s' Hloop k Hk; [lia |].
  simpl in Hloop. apply bind_Ok_inv in Hloop as (s1 & Hbody & Hloop).
  destruct (decide (k = i)) as [-> | Hne]; [eauto |].
  apply (IH (S i) s1 s' Hloop). lia.
Qed.

(** The row loop ends well only if no row has more cells than there are
    widths. *)
Lemma makeRowStrs_Ok_rows (rws : list (list string)) (widths : list Z) rs :
  makeRowStrs rws widths = Ok rs ->
  Forall (fun row : list string => (length row <= length widths)%nat) rws.
Proof.
  unfold makeRowStrs. intros Hloop. apply Forall_lookup. intros r row Hrow.
  destruct (decide (length row <= length widths)%nat) as [Hle | Hgt]; [exact Hle |].
  exfalso.
  destruct (for_loop_Ok_step _ _ _ _ _ Hloop r) as (sk & sk' & Hbody).
  { apply lookup_lt_Some in Hrow. lia. }
  apply bind_Ok_inv in Hbody as (row' & Hrow' & Hbody).
  unfold at_ in Hrow'. rewrite Hrow in Hrow'. inversion Hrow'; subst row'.
  apply bind_Ok_inv in Hbody as (sk1 & Hinner & _).
  destruct (for_loop_Ok_step _ _ _ _ _ Hinner (length widths) ltac:(lia))
    as (se & se' & Hcell).
  apply bind_Ok_inv in Hcell as (row' & _ & Hcell).
  apply bind_Ok_inv in Hcell as (x & _ & Hcell).
  apply bind_Ok_inv in Hcell as (w & Hw & _).
  unfold at_ in Hw. rewrite lookup_ge_None_2 in Hw by lia. discriminate.
Qed.

Lemma computeWidths_Ok_cover names rws w0 ws :
  computeWidths names rws w0 = Ok ws ->
  rows_cover names rws /\ length ws = length names.
Proof.
  intros Hws.
  assert (Hcover : rows_cover names rws).
  { apply no_short_row_cover. intros Hex.
    rewrite (computeWidths_short_row names rws w0 Hex) in Hws. discriminate. }
  split; [exact Hcover |].
  pose proof (computeWidths_safe names rws w0 Hcover) as Hsafe.
  now rewrite Hws in Hsafe.
Qed.

Lemma buildFormat_Ok_rows_match t t' : buildFormat t = Ok t' -> rows_match t.
Proof.
  unfold buildFormat. intros H.
  apply bind_Ok_inv in H as (ws & Hws & H).
  apply bind_Ok_inv in H as (dv & _ & H).
  apply bind_Ok_inv in H as (tl & _ & H).
  apply bind_Ok_inv in H as (cs & _ & H).
  apply bind_Ok_inv in H as (rs & Hrs & _).
  destruct (computeWidths_Ok_cover _ _ _ _ Hws) as [Hcover Hlen].
  apply makeRowStrs_Ok_rows in Hrs.
  unfold rows_match, rows_cover in *. apply Forall_lookup. intros r row Hrow.
  pose proof (Forall_lookup_1 _ _ _ _ Hcover Hrow) as H1.
  pose proof (Forall_lookup_1 _ _ _ _ Hrs Hrow) as H2.
  simpl in H1, H2. lia.
Qed.

(** A [Print] that has to build the format of a complete table with a
    mismatched row (fewer or more cells than there are columns) does not
    get through it: it indexes a vector out of bounds or ends in
    [std::length_error]. *)
Theorem Print_mismatched_row_fails (t : PrintTable) :
  incomplete t = false -> alteredState t = true -> ~ rows_match t ->
  Print t = Err OutOfBounds \/ Print t = Err LengthError.
Proof.
  intros Hinc Halt Hno.
  rewrite Print_complete by exact Hinc. rewrite Halt.
  destruct (buildFormat t) as [t1|e] eqn:Hb; cbn [bind].
  - destruct Hno. now apply (buildFormat_Ok_rows_match t t1).
  - destruct e; auto.
Qed.

(** The row of three cells on two columns passes the width scan and
    overruns the widths in the row loop. *)
Lemma Print_mismatched_row_fails_witness :
  Print long_row_table = Err OutOfBounds \/ Print long_row_table = Err LengthError.
Proof.
  apply Print_mismatched_row_fails; [reflexivity | reflexivity |].
  intros Hmatch. inversion Hmatch as [|row rws Hrow _]. simpl in Hrow. discriminate.
Defined.

(** ** The title does not move the columns *)

(** Setting another plain title that fits changes the second line that
    [Print] writes to standard output, to the new title centred in the
    same width, and no other line. *)
Theorem SetTitle_changes_title_line_only (t : PrintTable) (newTitle : string) :
  reachable t -> incomplete t = false -> rows_match t ->
  plain_table t = true ->
  Z.of_nat (table_width t) <= Int.INT_MAX ->
  (String.length (title t) + 4 <= table_width t)%nat ->
  newTitle <> ""%string -> plainb newTitle = true ->
  (String.length newTitle + 4 <= table_width t)%nat ->
  exists t1 t2 out1 out2,
    Print t = Ok (t1, out1)
    /\ Print (fst (SetTitle newTitle t)) = Ok (t2, out2)
    /\ stdout_lines out2
       = <[1%nat := title_line (table_width t) newTitle]> (stdout_lines out1).
Proof.
  intros Hreach Hinc Hmatch Hplain Hfit Hold Hne Hpl Hnew.
  destruct (incomplete_false_inv t Hinc) as (_ & Hcols & Hrows).
  set (ts := fst (SetTitle newTitle t)).
  assert (Halt : alteredState ts = true) by reflexivity.
  assert (Hmatch' : rows_match ts) by exact Hmatch.
  assert (Hfit' : Z.of_nat (table_width ts) <= Int.INT_MAX) by exact Hfit.
  assert (Hnew' : (String.length (title ts) + 4 <= table_width ts)%nat) by exact Hnew.
  assert (Hinc' : incomplete ts = false) by (now apply incomplete_false).
  assert (Hplain' : plain_table ts = true).
  { unfold plain_table in *. cbn [ts SetTitle fst title columnNames rows].
    apply andb_true_iff in Hplain as [Hp Hr]. apply andb_true_iff in Hp as [_ Hc].
    now rewrite Hpl, Hc, Hr. }
  assert (Hlay : layout_lines ts
                 = <[1%nat := title_line (table_width t) newTitle]> (layout_lines t))
    by reflexivity.
  clearbody ts.
  exists (mark_printed (formatted t)), (mark_printed (formatted ts)),
         (map Line (layout_lines t)), (map Line (layout_lines ts)).
  split; [| split].
  - rewrite Print_reachable_rebuilds by assumption.
    rewrite buildFormat_exact by assumption. cbn [bind].
    now rewrite table_lines_formatted.
  - rewrite Print_complete by exact Hinc'. rewrite Halt.
    rewrite (buildFormat_exact ts) by assumption. cbn [bind].
    now rewrite table_lines_formatted.
  - now rewrite !stdout_lines_layout, Hlay by assumption.
Qed.

Lemma SetTitle_changes_title_line_only_witness :
  exists t t1 t2 out1 out2,
    run small_calls new_table = Ok (t, [])
    /\ Print t = Ok (t1, out1)
    /\ Print (fst (SetTitle "Units" t)) = Ok (t2, out2)
    /\ stdout_lines out2 = <[1%nat := "| Units  |"%string]> (stdout_lines out1).
Proof.
  let T := eval vm_compute in
    (match run small_calls new_table with
     | Ok (t0, _) => t0
     | Err _ => new_table
     end) in
  exists T;
  assert (Hreach : reachable T) by (exists small_calls, []; vm_compute; reflexivity);
  assert (Hmatch : rows_match T) by (repeat constructor);
  assert (Hplain : plain_table T = true) by (vm_compute; reflexivity);
  assert (Hfit : Z.of_nat (table_width T) <= Int.INT_MAX) by (vm_compute; discriminate);
  assert (Hold : (String.length (title T) + 4 <= table_width T)%nat) by (vm_compute; lia);
  assert (Hne : "Units"%string <> ""%string) by discriminate;
  assert (Hnew : (String.length "Units" + 4 <= table_width T)%nat) by (vm_compute; lia);
  destruct (SetTitle_changes_title_line_only T "Units" Hreach eq_refl Hmatch Hplain
              Hfit Hold Hne eq_refl Hnew) as (t1 & t2 & out1 & out2 & HP1 & HP2 & Hout).
  exists t1, t2, out1, out2. split; [vm_compute; reflexivity |].
  split; [exact HP1 | split; [exact HP2 | exact Hout]].
Defined.
